(** * Inventory allocation: the order service over its PostgreSQL tables

    A shallow embedding of the backend of the inventory allocation system:

    - the schema of [scripts/migrate.js] (tables [products] and [orders]
      with their PRIMARY KEY, CHECK and REFERENCES constraints),
    - [repositories/productRepository.js] and
      [repositories/orderRepository.js] (one Rocq function per SQL text),
    - [services/orderService.js] ([placeOrder], the allocation routine),
    - the request validation of [controllers/orderController.js].

    JavaScript numbers that reach the code from a JSON body are modelled
    by rationals ([Q]): the code compares them ([quantity <= 0],
    [product.stock < quantity]) and hands them to the database as query
    parameters, so whether a number is an integer matters and is kept.
    INTEGER columns are modelled by [Z].  The 32-bit range of INTEGER is
    not built into the statements: where a query parameter or a result
    could leave it, the theorem names the range ([int4]) as a hypothesis.

    A call of [client.query] may reject.  Two sources are modelled: the
    errors PostgreSQL raises for the statement at hand (a parameter that
    is not the text of an integer, a violated constraint), and transient
    failures of the connection, which are drawn from a per-call list of
    fault flags, one flag per query in program order.  A rejected query
    has had no effect on the tables.

    Calls of [placeOrder] are run one after another, each as one
    transaction on the committed tables; interleavings of concurrent
    transactions are outside this model. *)

From Stdlib Require Import ZArith QArith List String Bool Lia.
From Stdlib Require Import Sorting.Sorted Sorting.Permutation.
Import ListNotations.

Local Open Scope string_scope.
Local Open Scope list_scope.
Local Open Scope Z_scope.

(** ** JavaScript numbers *)

Definition JsNumber : Type := Q.

(** [a <= b] and [a < b] on numbers, as booleans. *)
Definition js_le (a b : JsNumber) : bool := Qle_bool a b.
Definition js_lt (a b : JsNumber) : bool :=
  (Qnum a * Zpos (Qden b) <? Qnum b * Zpos (Qden a)).

(** A column of type INTEGER read back by the driver is a number. *)
Definition js_of_int (z : Z) : JsNumber := inject_Z z.

(** The driver sends a number as text; a parameter compared with, or
    stored in, an INTEGER column is read by PostgreSQL as an integer, and
    the text of a number with a fractional part is refused.  (That the
    integer also has to fit INTEGER is not tested here: see [int4].) *)
Definition pg_integer (x : JsNumber) : option Z :=
  if Qnum x mod Zpos (Qden x) =? 0
  then Some (Qnum x / Zpos (Qden x))
  else None.

(** ** Schema (scripts/migrate.js) *)

Record Product := mkProduct {
  p_id : Z;                (* id SERIAL PRIMARY KEY *)
  p_name : string;         (* name VARCHAR(255) NOT NULL, UNIQUE *)
  p_stock : Z;             (* stock INTEGER NOT NULL CHECK (stock >= 0) *)
  p_created_at : Z         (* created_at TIMESTAMP *)
}.

Record OrderRow := mkOrderRow {
  o_id : Z;                (* id SERIAL PRIMARY KEY *)
  o_product_id : Z;        (* product_id INTEGER NOT NULL REFERENCES products(id) *)
  o_quantity : Z;          (* quantity INTEGER NOT NULL CHECK (quantity > 0) *)
  o_status : string;       (* status VARCHAR(50) NOT NULL *)
  o_created_at : Z         (* created_at TIMESTAMP *)
}.

(** The two tables; rows are kept in insertion order. *)
Record Database := mkDatabase {
  products : list Product;
  orders : list OrderRow
}.

Definition CONFIRMED : string := "CONFIRMED".

(** ** SQL statements

    Each statement is a function on the tables.  It either fails with
    the error PostgreSQL raises or yields its result and the new tables. *)

Inductive PgError :=
| ConnectionFailure          (* transient: connection lost, serialization failure *)
| InvalidTextRepresentation  (* invalid input syntax for type integer *)
| CheckViolation
| ForeignKeyViolation
| StringDataRightTruncation.

(** SELECT * FROM products WHERE id = $1   -- rows[0] || null *)
Definition select_product (id : Z) (d : Database) : option Product :=
  find (fun p => p_id p =? id) (products d).

(** UPDATE products SET stock = stock - $1 WHERE id = $2 AND stock >= $1.
    Returns the updated rows' count and the new table; a new row that
    breaks CHECK (stock >= 0) fails the statement. *)
Fixpoint update_stock (amount id : Z) (ps : list Product)
  : PgError + (nat * list Product) :=
  match ps with
  | [] => inr (O, [])
  | p :: rest =>
      match update_stock amount id rest with
      | inl e => inl e
      | inr (n, rest') =>
          if (p_id p =? id) && (p_stock p >=? amount) then
            let stock' := p_stock p - amount in
            if stock' >=? 0
            then inr (S n, mkProduct (p_id p) (p_name p) stock' (p_created_at p) :: rest')
            else inl CheckViolation
          else inr (n, p :: rest')
      end
  end.

(** INSERT INTO orders (product_id, quantity, status, created_at)
    VALUES ($1, $2, $3, NOW()) RETURNING *
    with the row's id already drawn from the sequence. *)
Definition insert_order (row : OrderRow) (d : Database) : PgError + Database :=
  if negb (Nat.leb (String.length (o_status row)) 50) then inl StringDataRightTruncation
  else if negb (o_quantity row >? 0) then inl CheckViolation
  else match select_product (o_product_id row) d with
       | None => inl ForeignKeyViolation
       | Some _ => inr (mkDatabase (products d) (orders d ++ [row]))
       end.

(** SELECT o.id, o.product_id, o.quantity, o.status, o.created_at,
           p.name as product_name
    FROM orders o JOIN products p ON o.product_id = p.id *)
Record OrderWithProduct := mkOrderWithProduct {
  j_id : Z;
  j_product_id : Z;
  j_quantity : Z;
  j_status : string;
  j_created_at : Z;
  j_product_name : string
}.

Definition join_row (o : OrderRow) (p : Product) : OrderWithProduct :=
  mkOrderWithProduct (o_id o) (o_product_id o) (o_quantity o) (o_status o)
                     (o_created_at o) (p_name p).

Definition join_orders_products (d : Database) : list OrderWithProduct :=
  flat_map
    (fun o => map (join_row o)
                  (filter (fun p => o_product_id o =? p_id p) (products d)))
    (orders d).

(** ORDER BY o.created_at DESC: [x] may stand before [y] when [x] is not
    older than [y].  Rows of equal age keep the order of the join. *)
Definition newer_or_same (x y : OrderWithProduct) : bool :=
  j_created_at y <=? j_created_at x.

Fixpoint insert_by_created_at (x : OrderWithProduct) (l : list OrderWithProduct)
  : list OrderWithProduct :=
  match l with
  | [] => [x]
  | y :: l' =>
      if newer_or_same x y then x :: y :: l'
      else y :: insert_by_created_at x l'
  end.

Fixpoint order_by_created_at_desc (l : list OrderWithProduct)
  : list OrderWithProduct :=
  match l with
  | [] => []
  | x :: l' => insert_by_created_at x (order_by_created_at_desc l')
  end.

(** ** Connections, transactions and rejected queries *)

(** The server side: the committed tables and the sequence behind
    [orders.id] (a sequence is not rolled back with a transaction). *)
Record Server := mkServer {
  tables : Database;
  orders_id_seq : Z
}.

(** What a call meets outside the program: the clock and, for each
    [await] on the pool or the client in program order, whether it fails
    for transient reasons.  A list that runs out means no more failures. *)
Record Env := mkEnv {
  now : Z;
  faults : list bool
}.

(** A checked-out client ([pool.connect()]). *)
Record Client := mkClient {
  committed : Database;        (* the tables as every other session sees them *)
  working : option Database;   (* the tables as the open transaction sees them *)
  txn_now : Z;                 (* NOW() *)
  next_order_id : Z;
  pending_faults : list bool
}.

Definition set_committed (d : Database) (c : Client) : Client :=
  mkClient d (working c) (txn_now c) (next_order_id c) (pending_faults c).
Definition set_working (w : option Database) (c : Client) : Client :=
  mkClient (committed c) w (txn_now c) (next_order_id c) (pending_faults c).
Definition set_next_order_id (n : Z) (c : Client) : Client :=
  mkClient (committed c) (working c) (txn_now c) n (pending_faults c).
Definition set_pending_faults (fs : list bool) (c : Client) : Client :=
  mkClient (committed c) (working c) (txn_now c) (next_order_id c) fs.

(** The tables a statement on this client reads and writes. *)
Definition view (c : Client) : Database :=
  match working c with
  | Some d => d
  | None => committed c
  end.

Definition set_view (d : Database) (c : Client) : Client :=
  match working c with
  | Some _ => set_working (Some d) c
  | None => set_committed d c          (* autocommit *)
  end.

(** An awaited promise: it resolves to a value or rejects. *)
Inductive outcome (A : Type) : Type :=
| Returned (a : A)
| Thrown (e : PgError).
Arguments Returned {A} a.
Arguments Thrown {A} e.

(** Code that runs on a client. *)
Definition Js (A : Type) : Type := Client -> outcome A * Client.

Definition ret {A} (a : A) : Js A := fun c => (Returned a, c).

Definition bind {A B} (m : Js A) (k : A -> Js B) : Js B :=
  fun c =>
    match m c with
    | (Returned a, c') => k a c'
    | (Thrown e, c') => (Thrown e, c')
    end.

(** try { m } catch (error) { handler error } *)
Definition try_catch {A} (m : Js A) (handler : PgError -> Js A) : Js A :=
  fun c =>
    match m c with
    | (Returned a, c') => (Returned a, c')
    | (Thrown e, c') => handler e c'
    end.

Declare Scope js_scope.
Delimit Scope js_scope with js.
Notation "x <- m ;; k" := (bind m (fun x => k))
  (at level 61, m at next level, right associativity) : js_scope.
Notation "m ;; k" := (bind m (fun _ => k))
  (at level 61, right associativity) : js_scope.
Local Open Scope js_scope.

(** [client.query(...)]: a transient failure rejects the query and leaves
    the tables alone; otherwise the statement runs. *)
Definition client_query {A} (stmt : Js A) : Js A :=
  fun c =>
    match pending_faults c with
    | true :: rest => (Thrown ConnectionFailure, set_pending_faults rest c)
    | false :: rest => stmt (set_pending_faults rest c)
    | [] => stmt c
    end.

(** client.query('BEGIN ISOLATION LEVEL SERIALIZABLE') *)
Definition query_BEGIN : Js unit :=
  client_query (fun c =>
    match working c with
    | None => (Returned tt, set_working (Some (committed c)) c)
    | Some _ => (Returned tt, c)     (* warning only: already in a transaction *)
    end).

(** client.query('ROLLBACK') *)
Definition query_ROLLBACK : Js unit :=
  client_query (fun c => (Returned tt, set_working None c)).

(** client.query('COMMIT') *)
Definition query_COMMIT : Js unit :=
  client_query (fun c => (Returned tt, set_working None (set_committed (view c) c))).

(** [pool.connect()] *)
Definition pool_connect (env : Env) (s : Server) : outcome Client :=
  match faults env with
  | true :: _ => Thrown ConnectionFailure
  | false :: rest => Returned (mkClient (tables s) None (now env) (orders_id_seq s) rest)
  | [] => Returned (mkClient (tables s) None (now env) (orders_id_seq s) [])
  end.

(** [client.release()]: the session ends; what it did not commit is gone. *)
Definition release (c : Client) : Server :=
  mkServer (committed c) (next_order_id c).

(** ** repositories/productRepository.js *)

(** findByIdWithLock(productId, client):
    SELECT * FROM products WHERE id = $1 FOR UPDATE; rows[0] || null.
    The row lock orders concurrent transactions on one product; inside
    one transaction it reads the row. *)
Definition findByIdWithLock (productId : JsNumber) : Js (option Product) :=
  client_query (fun c =>
    match pg_integer productId with
    | None => (Thrown InvalidTextRepresentation, c)
    | Some id => (Returned (select_product id (view c)), c)
    end).

(** deductStock(productId, quantityToDeduct, client):
    UPDATE products SET stock = stock - $1 WHERE id = $2 AND stock >= $1
    RETURNING stock; result.rowCount > 0. *)
Definition deductStock (productId quantityToDeduct : JsNumber) : Js bool :=
  client_query (fun c =>
    match pg_integer quantityToDeduct, pg_integer productId with
    | Some amount, Some id =>
        match update_stock amount id (products (view c)) with
        | inl e => (Thrown e, c)
        | inr (rowCount, ps) =>
            (Returned (0 <? rowCount)%nat,
             set_view (mkDatabase ps (orders (view c))) c)
        end
    | _, _ => (Thrown InvalidTextRepresentation, c)
    end).

(** ** repositories/orderRepository.js *)

(** create(productId, quantity, status, client):
    INSERT INTO orders (product_id, quantity, status, created_at)
    VALUES ($1, $2, $3, NOW()) RETURNING *; rows[0].
    A parameter the database refuses (an integer it cannot read, a status
    too long for VARCHAR(50)) rejects the query before an id is drawn
    from the sequence; a violated constraint rejects it after. *)
Definition create (productId quantity : JsNumber) (status : string) : Js OrderRow :=
  client_query (fun c =>
    match pg_integer productId, pg_integer quantity with
    | Some product_id, Some q =>
        if negb (Nat.leb (String.length status) 50)
        then (Thrown StringDataRightTruncation, c)
        else
          let row := mkOrderRow (next_order_id c) product_id q status (txn_now c) in
          let c := set_next_order_id (next_order_id c + 1) c in
          match insert_order row (view c) with
          | inl e => (Thrown e, c)
          | inr d => (Returned row, set_view d c)
          end
    | _, _ => (Thrown InvalidTextRepresentation, c)
    end).

(** findAll(): the join, newest first (run on the pool: committed data). *)
Definition findAll (s : Server) : list OrderWithProduct :=
  order_by_created_at_desc (join_orders_products (tables s)).

(** ** services/orderService.js *)

(** The [order] object of a successful result. *)
Record OrderView := mkOrderView {
  order_id : Z;             (* id: order.id *)
  order_productId : Z;      (* productId: order.product_id *)
  order_quantity : Z;       (* quantity: order.quantity *)
  order_status : string;    (* status: order.status *)
  order_createdAt : Z       (* createdAt: order.created_at *)
}.

(** The objects [placeOrder] returns, by their [code] (the successful one
    has none). *)
Inductive PlaceOrderResult :=
| OrderCreated (order : OrderView)        (* success: true, statusCode: 201 *)
| ProductNotFound                         (* 'PRODUCT_NOT_FOUND', 404 *)
| InvalidQuantity                         (* 'INVALID_QUANTITY', 400 *)
| InsufficientStock (availableStock : Z)  (* 'INSUFFICIENT_STOCK', 400 *)
| StockDeductionFailed                    (* 'STOCK_DEDUCTION_FAILED', 500 *)
| InternalError.                          (* 'INTERNAL_ERROR', 500 *)

Definition success (r : PlaceOrderResult) : bool :=
  match r with
  | OrderCreated _ => true
  | _ => false
  end.

Definition code (r : PlaceOrderResult) : option string :=
  match r with
  | OrderCreated _ => None
  | ProductNotFound => Some "PRODUCT_NOT_FOUND"
  | InvalidQuantity => Some "INVALID_QUANTITY"
  | InsufficientStock _ => Some "INSUFFICIENT_STOCK"
  | StockDeductionFailed => Some "STOCK_DEDUCTION_FAILED"
  | InternalError => Some "INTERNAL_ERROR"
  end.

Definition statusCode (r : PlaceOrderResult) : Z :=
  match r with
  | OrderCreated _ => 201
  | ProductNotFound => 404
  | InvalidQuantity => 400
  | InsufficientStock _ => 400
  | StockDeductionFailed => 500
  | InternalError => 500
  end.

(** The body of the [try] block of [placeOrder]. *)
Definition placeOrder_try (productId quantity : JsNumber) : Js PlaceOrderResult :=
  query_BEGIN ;;
  (* Step 1: Validate product exists and get lock on it *)
  product <- findByIdWithLock productId ;;
  match product with
  | None =>
      query_ROLLBACK ;;
      ret ProductNotFound
  | Some product =>
      (* Step 2: Validate requested quantity *)
      if js_le quantity 0%Q then
        query_ROLLBACK ;;
        ret InvalidQuantity
      (* Step 3: Check if sufficient stock is available *)
      else if js_lt (js_of_int (p_stock product)) quantity then
        query_ROLLBACK ;;
        ret (InsufficientStock (p_stock product))
      else
        (* Step 4: Deduct stock from inventory *)
        stockDeducted <- deductStock productId quantity ;;
        if negb stockDeducted then
          query_ROLLBACK ;;
          ret StockDeductionFailed
        else
          (* Step 5: Create order record *)
          order <- create productId quantity CONFIRMED ;;
          (* Step 6: Commit transaction *)
          query_COMMIT ;;
          ret (OrderCreated
                 (mkOrderView (o_id order) (o_product_id order) (o_quantity order)
                              (o_status order) (o_created_at order)))
  end.

(** The [catch] block: roll back (a failing rollback is only logged) and
    answer INTERNAL_ERROR. *)
Definition placeOrder_catch (error : PgError) : Js PlaceOrderResult :=
  try_catch query_ROLLBACK (fun rollbackError => ret tt) ;;
  ret InternalError.

(** placeOrder(productId, quantity): connect, run the transaction, and
    release the client on every path.  A failing [pool.connect()] is
    outside the [try] and rejects the call. *)
Definition placeOrder (env : Env) (productId quantity : JsNumber) (s : Server)
  : outcome PlaceOrderResult * Server :=
  match pool_connect env s with
  | Thrown e => (Thrown e, s)
  | Returned client =>
      let (result, client') :=
        try_catch (placeOrder_try productId quantity) placeOrder_catch client in
      (result, release client')
  end.

(** ** controllers/orderController.js *)

(** A field of [req.body]: absent, a number, or any other JSON value. *)
Inductive JsValue :=
| JsUndefined
| JsNumberValue (n : JsNumber)
| JsOtherValue.

Record RequestBody := mkRequestBody {
  body_productId : JsValue;
  body_quantity : JsValue
}.

(** What the controller sends: its own 400 answers, by [code], or the
    service's result under the service's [statusCode]. *)
Inductive Response :=
| BadRequest (errorCode : string)
| ServiceResult (result : PlaceOrderResult).

(** OrderController.placeOrder(req, res) *)
Definition controller_placeOrder (env : Env) (body : RequestBody) (s : Server)
  : outcome Response * Server :=
  match body_productId body, body_quantity body with
  | JsUndefined, _ | _, JsUndefined =>
      (Returned (BadRequest "MISSING_REQUIRED_FIELDS"), s)
  | JsOtherValue, _ =>
      (Returned (BadRequest "INVALID_PRODUCT_ID"), s)
  | JsNumberValue productId, quantity =>
      if js_le productId 0%Q then (Returned (BadRequest "INVALID_PRODUCT_ID"), s)
      else
        match quantity with
        | JsNumberValue quantity =>
            if js_le quantity 0%Q then (Returned (BadRequest "INVALID_QUANTITY"), s)
            else
              match placeOrder env productId quantity s with
              | (Returned result, s') => (Returned (ServiceResult result), s')
              | (Thrown e, s') => (Thrown e, s')
              end
        | _ => (Returned (BadRequest "INVALID_QUANTITY"), s)
        end
  end.

(** ** Observations used by the properties *)

(** The quantity of resource [r] as a reader of the committed tables
    finds it. *)
Definition stock_of (r : Z) (s : Server) : option Z :=
  option_map p_stock (select_product r (tables s)).

(** The sum of the quantities of the CONFIRMED ledger entries against [r]. *)
Definition confirmed_quantity (r : Z) (os : list OrderRow) : Z :=
  fold_right
    (fun o acc =>
       if (o_product_id o =? r) && String.eqb (o_status o) CONFIRMED
       then o_quantity o + acc else acc)
    0 os.

(** One call of [placeOrder] with what it meets outside the program. *)
Record Call := mkCall {
  call_env : Env;
  call_productId : JsNumber;
  call_quantity : JsNumber
}.

(** Calls applied one after another: the results in order and the final
    state. *)
Fixpoint run_calls (calls : list Call) (s : Server)
  : list (outcome PlaceOrderResult) * Server :=
  match calls with
  | [] => ([], s)
  | c :: rest =>
      let (result, s') := placeOrder (call_env c) (call_productId c) (call_quantity c) s in
      let (results, s'') := run_calls rest s' in
      (result :: results, s'')
  end.

(** The quantity a call was granted against [r]: its requested quantity
    when it targets [r] and returned success, else nothing. *)
Definition granted (r : Z) (c : Call) (result : outcome PlaceOrderResult) : JsNumber :=
  match result, pg_integer (call_productId c) with
  | Returned (OrderCreated _), Some target =>
      if target =? r then call_quantity c else 0%Q
  | _, _ => 0%Q
  end.

Fixpoint granted_total (r : Z) (calls : list Call)
         (results : list (outcome PlaceOrderResult)) : JsNumber :=
  match calls, results with
  | c :: calls', x :: results' => (granted r c x + granted_total r calls' results')%Q
  | _, _ => 0%Q
  end.

(** The ledger row a granted call writes, and the [order] object made
    from it. *)
Definition confirmed_row (env : Env) (s : Server) (product_id q : Z) : OrderRow :=
  mkOrderRow (orders_id_seq s) product_id q CONFIRMED (now env).

Definition order_view (o : OrderRow) : OrderView :=
  mkOrderView (o_id o) (o_product_id o) (o_quantity o) (o_status o) (o_created_at o).

(** What one call of [placeOrder] can do, whatever fails on the way:
    either it is refused (it rejects or returns an unsuccessful result)
    and the committed tables are the old ones, or it is granted: stock
    deducted, one CONFIRMED row appended, both committed. *)
Inductive placeOrder_outcome (env : Env) (productId quantity : JsNumber) (s : Server)
  : outcome PlaceOrderResult -> Server -> Prop :=
| Refused (result : outcome PlaceOrderResult) (s' : Server) :
    tables s' = tables s ->
    (forall r, result = Returned r -> success r = false) ->
    placeOrder_outcome env productId quantity s result s'
| Granted (product_id q : Z) (p : Product) (n : nat) (ps : list Product) :
    pg_integer productId = Some product_id ->
    pg_integer quantity = Some q ->
    select_product product_id (tables s) = Some p ->
    0 < q <= p_stock p ->
    update_stock q product_id (products (tables s)) = inr (n, ps) ->
    placeOrder_outcome env productId quantity s
      (Returned (OrderCreated (order_view (confirmed_row env s product_id q))))
      (mkServer
         (mkDatabase ps (orders (tables s) ++ [confirmed_row env s product_id q]))
         (orders_id_seq s + 1)).

(** The [products] table after the UPDATE of [deductStock]. *)
Definition deducted (amount id : Z) (ps : list Product) : list Product :=
  match update_stock amount id ps with
  | inr (_, ps') => ps'
  | inl _ => ps
  end.

(** [placeOrder] read along its straight paths, for a call that meets no
    transient failure: the result and the committed state. *)
Definition placeOrder_undisturbed (env : Env) (productId quantity : JsNumber) (s : Server)
  : PlaceOrderResult * Server :=
  let unchanged := mkServer (tables s) (orders_id_seq s) in
  match pg_integer productId with
  | None => (InternalError, unchanged)
  | Some product_id =>
      match select_product product_id (tables s) with
      | None => (ProductNotFound, unchanged)
      | Some product =>
          if js_le quantity 0%Q then (InvalidQuantity, unchanged)
          else if js_lt (js_of_int (p_stock product)) quantity
          then (InsufficientStock (p_stock product), unchanged)
          else
            match pg_integer quantity with
            | None => (InternalError, unchanged)
            | Some q =>
                let row := confirmed_row env s product_id q in
                (OrderCreated (order_view row),
                 mkServer
                   (mkDatabase (deducted q product_id (products (tables s)))
                               (orders (tables s) ++ [row]))
                   (orders_id_seq s + 1))
            end
      end
  end.

(** The sample data of scripts/migrate.js, before any order. *)
Definition sample_data : Server :=
  mkServer
    (mkDatabase
       [mkProduct 1 "Laptop" 10 0; mkProduct 2 "Mouse" 50 0;
        mkProduct 3 "Keyboard" 30 0; mkProduct 4 "Monitor" 5 0;
        mkProduct 5 "USB Cable" 100 0]
       [])
    1.

(** A call at time [t] that meets no transient failure. *)
Definition undisturbed (t : Z) : Env := mkEnv t [].

(** PRIMARY KEY of [products]: no two rows share an id. *)
Definition products_primary_key (d : Database) : Prop :=
  NoDup (map p_id (products d)).

(** The next query on the client is not hit by a transient failure. *)
Definition next_query_runs (c : Client) : Prop :=
  hd false (pending_faults c) = false.

(** A listing is newest first: no entry is older than an entry after it. *)
Definition newest_first (l : list OrderWithProduct) : Prop :=
  StronglySorted (fun x y => j_created_at y <= j_created_at x) l.

(** The ledger row a listed entry shows. *)
Definition order_of_entry (e : OrderWithProduct) : OrderRow :=
  mkOrderRow (j_id e) (j_product_id e) (j_quantity e) (j_status e) (j_created_at e).

(** REFERENCES products(id): every order names a product of the table. *)
Definition orders_foreign_key (d : Database) : Prop :=
  forall o, In o (orders d) -> select_product (o_product_id o) d <> None.

(** No transient failure during the call. *)
Definition no_faults (env : Env) : Prop := Forall (fun b => b = false) (faults env).

(** ** Reads on the pool

    The read-only functions run their query with [pool.query]: one
    statement on a connection of its own, outside any transaction; it
    sees the committed tables and may be rejected like any other query. *)

Definition pool_query {A} (env : Env) (s : Server) (stmt : Database -> outcome A)
  : outcome A :=
  match faults env with
  | true :: _ => Thrown ConnectionFailure
  | _ => stmt (tables s)
  end.

(** ORDER BY: insertion of each row before the first row it may stand
    before; rows that compare equal keep their order. *)
Fixpoint insert_sorted {A} (before : A -> A -> bool) (x : A) (l : list A) : list A :=
  match l with
  | [] => [x]
  | y :: l' => if before x y then x :: y :: l' else y :: insert_sorted before x l'
  end.

Fixpoint sort_by {A} (before : A -> A -> bool) (l : list A) : list A :=
  match l with
  | [] => []
  | x :: l' => insert_sorted before x (sort_by before l')
  end.

Module ProductRepository.

(** findById(productId): SELECT * FROM products WHERE id = $1;
    rows[0] || null. *)
Definition findById (env : Env) (productId : JsNumber) (s : Server)
  : outcome (option Product) :=
  pool_query env s (fun d =>
    match pg_integer productId with
    | None => Thrown InvalidTextRepresentation
    | Some id => Returned (select_product id d)
    end).

(** findAll(): SELECT * FROM products ORDER BY id. *)
Definition findAll (env : Env) (s : Server) : outcome (list Product) :=
  pool_query env s (fun d =>
    Returned (sort_by (fun x y => p_id x <=? p_id y) (products d))).

End ProductRepository.

Module OrderRepository.

(** findById(orderId): SELECT * FROM orders WHERE id = $1; rows[0] || null. *)
Definition findById (env : Env) (orderId : JsNumber) (s : Server)
  : outcome (option OrderRow) :=
  pool_query env s (fun d =>
    match pg_integer orderId with
    | None => Thrown InvalidTextRepresentation
    | Some id => Returned (find (fun o => o_id o =? id) (orders d))
    end).

(** findAll(): the join with products, newest first. *)
Definition findAll (env : Env) (s : Server) : outcome (list OrderWithProduct) :=
  pool_query env s (fun d =>
    Returned (order_by_created_at_desc (join_orders_products d))).

(** findByProductId(productId):
    SELECT * FROM orders WHERE product_id = $1 ORDER BY created_at DESC. *)
Definition findByProductId (env : Env) (productId : JsNumber) (s : Server)
  : outcome (list OrderRow) :=
  pool_query env s (fun d =>
    match pg_integer productId with
    | None => Thrown InvalidTextRepresentation
    | Some id =>
        Returned (sort_by (fun x y => o_created_at y <=? o_created_at x)
                          (filter (fun o => o_product_id o =? id) (orders d)))
    end).

End OrderRepository.

(** ** services/orderService.js: the read-only functions *)

(** The objects the read-only functions return, by [statusCode]. *)
Inductive ReadResult (A : Type) : Type :=
| Found (a : A)               (* success: true, statusCode: 200 *)
| Missing (error : string)    (* success: false, statusCode: 404 *)
| ReadFailed.                 (* success: false, error: 'Internal server error', 500 *)
Arguments Found {A} a.
Arguments Missing {A} error.
Arguments ReadFailed {A}.

Definition read_statusCode {A} (r : ReadResult A) : Z :=
  match r with
  | Found _ => 200
  | Missing _ => 404
  | ReadFailed => 500
  end.

(** A listing with its [count] field. *)
Record Listing (A : Type) := mkListing {
  listed : list A;
  count : nat
}.
Arguments mkListing {A} listed count.
Arguments listed {A} l.
Arguments count {A} l.

(** The [product] object of getProduct. *)
Record ProductView := mkProductView {
  pv_id : Z;           (* id: product.id *)
  pv_name : string;    (* name: product.name *)
  pv_stock : Z;        (* stock: product.stock *)
  pv_createdAt : Z     (* createdAt: product.created_at *)
}.

(** getOrder(orderId) *)
Definition getOrder (env : Env) (orderId : JsNumber) (s : Server) : ReadResult OrderRow :=
  match OrderRepository.findById env orderId s with
  | Returned None => Missing "Order not found"
  | Returned (Some order) => Found order
  | Thrown error => ReadFailed
  end.

(** getAllOrders() *)
Definition getAllOrders (env : Env) (s : Server) : ReadResult (Listing OrderWithProduct) :=
  match OrderRepository.findAll env s with
  | Returned orders => Found (mkListing orders (List.length orders))
  | Thrown error => ReadFailed
  end.

(** getProduct(productId) *)
Definition getProduct (env : Env) (productId : JsNumber) (s : Server)
  : ReadResult ProductView :=
  match ProductRepository.findById env productId s with
  | Returned None => Missing "Product not found"
  | Returned (Some product) =>
      Found (mkProductView (p_id product) (p_name product) (p_stock product)
                           (p_created_at product))
  | Thrown error => ReadFailed
  end.

(** getAllProducts() *)
Definition getAllProducts (env : Env) (s : Server) : ReadResult (Listing Product) :=
  match ProductRepository.findAll env s with
  | Returned products => Found (mkListing products (List.length products))
  | Thrown error => ReadFailed
  end.

(** ** models/Product.js *)



(** ** Further observations *)

(** The constraints of the schema, with the sequence ahead of every
    order id it handed out. *)
Record schema_ok (s : Server) : Prop := mkSchemaOk {
  ok_products_pk : products_primary_key (tables s);
  ok_stock_check : Forall (fun p => 0 <= p_stock p) (products (tables s));
  ok_orders_pk : NoDup (map o_id (orders (tables s)));
  ok_orders_seq : Forall (fun o => o_id o < orders_id_seq s) (orders (tables s));
  ok_quantity_check : Forall (fun o => 0 < o_quantity o) (orders (tables s));
  ok_orders_fk : orders_foreign_key (tables s)
}.

(** The [order] objects of the successful results, in call order. *)
Fixpoint returned_orders (results : list (outcome PlaceOrderResult)) : list OrderView :=
  match results with
  | [] => []
  | Returned (OrderCreated order) :: rest => order :: returned_orders rest
  | _ :: rest => returned_orders rest
  end.

(** ** The range of INTEGER *)

(** The values an INTEGER column or an integer query parameter can hold. *)
Definition int4 (z : Z) : Prop := -2147483648 <= z <= 2147483647.

(** A number the database can read as an integer parameter or refuses as
    not being the text of an integer: not an integer beyond INTEGER. *)
Definition within_int4 (x : JsNumber) : Prop :=
  forall z, pg_integer x = Some z -> int4 z.

(** * Properties *)

(** ** Numbers and SQL statements *)

Lemma pg_integer_of_int (z : Z) : pg_integer (js_of_int z) = Some z.
Proof.
  unfold pg_integer, js_of_int, inject_Z; simpl.
  rewrite Z.mod_1_r, Z.div_1_r. reflexivity.
Qed.

Lemma pg_integer_sound (x : JsNumber) (z : Z) :
  pg_integer x = Some z -> (x == js_of_int z)%Q.
Proof.
  unfold pg_integer, js_of_int, Qeq, inject_Z; simpl.
  destruct (Z.eqb_spec (Qnum x mod Z.pos (Qden x)) 0) as [H|]; [|discriminate].
  intros [= <-].
  rewrite Z.mul_1_r.
  pose proof (Z.div_mod (Qnum x) (Z.pos (Qden x)) ltac:(lia)). lia.
Qed.

Lemma js_le_spec (a b : JsNumber) : js_le a b = true <-> (a <= b)%Q.
Proof. apply Qle_bool_iff. Qed.

Lemma js_lt_spec (a b : JsNumber) : js_lt a b = true <-> (a < b)%Q.
Proof. unfold js_lt, Qlt. apply Z.ltb_lt. Qed.

(** ** The stock UPDATE *)

(** The UPDATE of [deductStock] never breaks CHECK (stock >= 0): a row is
    only touched under [stock >= $1]. *)
Lemma update_stock_total (amount id : Z) (ps : list Product) :
  exists n ps', update_stock amount id ps = inr (n, ps').
Proof.
  induction ps as [|p ps (n & ps' & IH)]; simpl; [now eauto|].
  rewrite IH.
  destruct (p_id p =? id); simpl; [|now eauto].
  destruct (Z.geb_spec (p_stock p) amount) as [Hge|Hlt]; [|now eauto].
  destruct (Z.geb_spec (p_stock p - amount) 0); [now eauto|lia].
Qed.

(** Rows of other products are not touched. *)
Lemma update_stock_other (amount id r : Z) (ps ps' : list Product) (n : nat) :
  r <> id ->
  update_stock amount id ps = inr (n, ps') ->
  find (fun p => p_id p =? r) ps' = find (fun p => p_id p =? r) ps.
Proof.
  intros Hr; revert n ps'; induction ps as [|p ps IH]; simpl; intros n ps'.
  - now intros [= <- <-].
  - destruct (update_stock amount id ps) as [e|[m rest]]; [discriminate|].
    specialize (IH m rest eq_refl).
    destruct (Z.eqb_spec (p_id p) id) as [Hid|Hid]; simpl.
    + destruct (p_stock p >=? amount).
      * destruct (p_stock p - amount >=? 0); [|discriminate].
        intros [= <- <-]; simpl.
        destruct (Z.eqb_spec (p_id p) r); [lia|exact IH].
      * intros [= <- <-]; simpl. now rewrite IH.
    + intros [= <- <-]; simpl. now rewrite IH.
Qed.

(** The row a reader finds under [id] is updated when its stock covers
    the amount, and then at least one row is counted. *)
Lemma update_stock_target (amount id : Z) (ps ps' : list Product) (n : nat) (p : Product) :
  find (fun p => p_id p =? id) ps = Some p ->
  amount <= p_stock p ->
  update_stock amount id ps = inr (n, ps') ->
  (0 < n)%nat /\
  find (fun p => p_id p =? id) ps'
  = Some (mkProduct (p_id p) (p_name p) (p_stock p - amount) (p_created_at p)).
Proof.
  revert n ps'; induction ps as [|q ps IH]; simpl; intros n ps' Hfind Hle.
  - discriminate.
  - destruct (update_stock amount id ps) as [e|[m rest]]; [discriminate|].
    destruct (Z.eqb_spec (p_id q) id) as [Hid|Hid]; simpl.
    + injection Hfind as ->.
      destruct (Z.geb_spec (p_stock p) amount); [|lia].
      destruct (Z.geb_spec (p_stock p - amount) 0); [|lia].
      intros [= <- <-]; simpl. split; [lia|].
      destruct (Z.eqb_spec (p_id p) id); [reflexivity|contradiction].
    + intros [= <- <-]; simpl.
      destruct (Z.eqb_spec (p_id q) id); [contradiction|].
      now apply IH.
Qed.

(** No row under [id]: nothing is updated. *)
Lemma update_stock_absent (amount id : Z) (ps : list Product) :
  ~ In id (map p_id ps) ->
  update_stock amount id ps = inr (O, ps).
Proof.
  induction ps as [|x ps IH]; simpl; intros Hnotin; [reflexivity|].
  rewrite IH by tauto.
  destruct (Z.eqb_spec (p_id x) id); [exfalso; apply Hnotin; now left|reflexivity].
Qed.

(** Under the primary key of [products] the row a reader finds is the
    only one the UPDATE can touch. *)
Lemma update_stock_short (amount id : Z) (ps : list Product) (p : Product) :
  NoDup (map p_id ps) ->
  find (fun p => p_id p =? id) ps = Some p ->
  p_stock p < amount ->
  update_stock amount id ps = inr (O, ps).
Proof.
  induction ps as [|q ps IH]; simpl; intros Hnd Hfind Hlt; [discriminate|].
  inversion Hnd as [|? ? Hnotin Hnd']; subst.
  destruct (Z.eqb_spec (p_id q) id) as [Hid|Hid]; simpl.
  - injection Hfind as ->. subst id.
    rewrite (update_stock_absent amount (p_id p) ps Hnotin).
    destruct (Z.geb_spec (p_stock p) amount); [lia|reflexivity].
  - now rewrite (IH Hnd' Hfind Hlt).
Qed.

Lemma insert_order_inr (row : OrderRow) (d d' : Database) :
  insert_order row d = inr d' ->
  d' = mkDatabase (products d) (orders d ++ [row]) /\ 0 < o_quantity row.
Proof.
  unfold insert_order.
  destruct (Nat.leb (String.length (o_status row)) 50); simpl; [|discriminate].
  destruct (Z.gtb_spec (o_quantity row) 0); simpl; [|discriminate].
  destruct (select_product (o_product_id row) d); [|discriminate].
  intros [= <-]. split; [reflexivity|lia].
Qed.

Lemma insert_order_confirmed (i product_id q t : Z) (d : Database) (p : Product) :
  0 < q ->
  select_product product_id d = Some p ->
  insert_order (mkOrderRow i product_id q CONFIRMED t) d
  = inr (mkDatabase (products d) (orders d ++ [mkOrderRow i product_id q CONFIRMED t])).
Proof.
  intros Hq Hp. unfold insert_order; simpl.
  destruct (Z.gtb_spec q 0); [simpl|lia].
  now rewrite Hp.
Qed.

(** What the two guards of [placeOrder] leave for an integer quantity. *)
Lemma guards_passed (quantity : JsNumber) (q stock : Z) :
  pg_integer quantity = Some q ->
  js_le quantity 0%Q = false ->
  js_lt (js_of_int stock) quantity = false ->
  0 < q <= stock.
Proof.
  intros Hq Hle Hlt. apply pg_integer_sound in Hq.
  assert (H1 : ~ (quantity <= 0)%Q) by (rewrite <- js_le_spec; congruence).
  assert (H2 : ~ (js_of_int stock < quantity)%Q) by (rewrite <- js_lt_spec; congruence).
  rewrite Hq in H1, H2. unfold js_of_int in *.
  change 0%Q with (inject_Z 0) in H1.
  rewrite <- Zle_Qle in H1. rewrite <- Zlt_Qlt in H2. lia.
Qed.

Local Arguments insert_order : simpl never.

Ltac run_step :=
  match goal with
  | |- context [match ?fs with [] => _ | _ :: _ => _ end] =>
      is_var fs; destruct fs as [|[] fs]
  | |- context [pg_integer ?x] => destruct (pg_integer x) eqn:?
  | |- context [select_product ?i ?d] => destruct (select_product i d) eqn:?
  | |- context [js_le ?a ?b] => destruct (js_le a b) eqn:?
  | |- context [js_lt ?a ?b] => destruct (js_lt a b) eqn:?
  | |- context [update_stock ?a ?i ?ps] =>
      destruct (update_stock a i ps) as [?|[[|?] ?]] eqn:?
  | |- context [insert_order ?r ?d] =>
      let H := fresh "Hins" in
      destruct (insert_order r d) eqn:H;
      [|apply insert_order_inr in H; destruct H as [-> _]]
  end; cbn.

Ltac run_placeOrder :=
  unfold placeOrder, pool_connect;
  repeat unfold try_catch, placeOrder_try, placeOrder_catch, bind, ret, query_BEGIN,
    query_ROLLBACK, query_COMMIT, findByIdWithLock, deductStock, create,
    client_query;
  cbn.

Ltac calm_step H :=
  match goal with
  | |- context [match ?fs with [] => _ | _ :: _ => _ end] =>
      is_var fs; destruct fs as [|[] fs];
      [|exfalso; inversion H; discriminate|apply Forall_inv_tail in H]
  end; cbn.

(** Every path through [placeOrder]: the paths that end in a rollback, a
    rejected query or a rejected connection leave the committed tables
    alone; the one path through COMMIT is the granted one. *)
Lemma placeOrder_cases (env : Env) (productId quantity : JsNumber) (s : Server) :
  placeOrder_outcome env productId quantity s
    (fst (placeOrder env productId quantity s))
    (snd (placeOrder env productId quantity s)).
Proof.
  run_placeOrder.
  destruct (faults env) as [|[] fs]; cbn.
  all: repeat run_step.
  all: try (apply Refused; [reflexivity|now intros ? [= <-]]).
  all: eapply Granted; eauto using guards_passed.
Qed.

(** When the pool hands out a client the call returns a result object:
    whatever is thrown inside the [try] is caught. *)
Lemma placeOrder_returns (env : Env) (productId quantity : JsNumber) (s : Server) :
  hd false (faults env) = false ->
  exists result, fst (placeOrder env productId quantity s) = Returned result.
Proof.
  run_placeOrder.
  destruct (faults env) as [|[] fs]; cbn; intros Hconnect; [|discriminate|].
  all: repeat run_step.
  all: eauto.
Qed.

(** With calls run one after another the safety net of Step 4 is never
    used: the row that passed the stock check is the row the UPDATE
    finds. *)
Lemma placeOrder_deduction_never_fails
      (env : Env) (productId quantity : JsNumber) (s : Server) :
  fst (placeOrder env productId quantity s) <> Returned StockDeductionFailed.
Proof.
  run_placeOrder.
  destruct (faults env) as [|[] fs]; cbn.
  all: repeat run_step.
  all: try discriminate.
  all: exfalso;
    match goal with
    | Hup : update_stock ?q ?r _ = inr (O, _),
      Hsel : select_product ?r _ = Some ?p,
      Hq : pg_integer _ = Some ?q,
      Hle : js_le _ _ = false,
      Hlt : js_lt _ _ = false |- _ =>
        pose proof (guards_passed _ _ _ Hq Hle Hlt) as Hrange;
        destruct (update_stock_target q r _ _ _ p Hsel ltac:(lia) Hup); lia
    end.
Qed.


Lemma deducted_other (q id r : Z) (ps : list Product) :
  r <> id ->
  find (fun p => p_id p =? r) (deducted q id ps) = find (fun p => p_id p =? r) ps.
Proof.
  intros Hr. unfold deducted.
  destruct (update_stock_total q id ps) as (n & ps' & Hup). rewrite Hup.
  now apply update_stock_other with (1 := Hr) (2 := Hup).
Qed.

(** A call that meets no transient failure follows the straight paths. *)
Lemma placeOrder_no_faults (env : Env) (productId quantity : JsNumber) (s : Server) :
  no_faults env ->
  placeOrder env productId quantity s
  = (Returned (fst (placeOrder_undisturbed env productId quantity s)),
     snd (placeOrder_undisturbed env productId quantity s)).
Proof.
  unfold no_faults, placeOrder_undisturbed. intros Hcalm.
  run_placeOrder.
  destruct (faults env) as [|[] fs]; cbn;
    [|exfalso; inversion Hcalm; discriminate|apply Forall_inv_tail in Hcalm].
  all: destruct (pg_integer productId) as [product_id|] eqn:Hid; cbn;
    [|repeat calm_step Hcalm; reflexivity].
  all: repeat calm_step Hcalm.
  all: destruct (select_product product_id (tables s)) as [p|] eqn:Hsel; cbn;
    [|repeat calm_step Hcalm; reflexivity].
  all: destruct (js_le quantity 0%Q) eqn:Hle; cbn;
    [repeat calm_step Hcalm; reflexivity|].
  all: destruct (js_lt (js_of_int (p_stock p)) quantity) eqn:Hlt; cbn;
    [repeat calm_step Hcalm; reflexivity|].
  all: repeat calm_step Hcalm.
  all: destruct (pg_integer quantity) as [q|] eqn:Hq; cbn;
    [|repeat calm_step Hcalm; reflexivity].
  all: pose proof (guards_passed quantity q (p_stock p) Hq Hle Hlt) as Hrange.
  all: destruct (update_stock_total q product_id (products (tables s)))
    as (n & ps & Hup).
  all: destruct (update_stock_target q product_id _ ps n p Hsel ltac:(lia) Hup)
    as [Hn Hfind].
  all: unfold deducted; rewrite Hup; cbn.
  all: destruct n as [|n]; [lia|]; cbn.
  all: repeat calm_step Hcalm.
  all: erewrite insert_order_confirmed by (try exact Hfind; lia); cbn.
  all: repeat calm_step Hcalm.
  all: reflexivity.
Qed.

Lemma undisturbed_no_faults (t : Z) : no_faults (undisturbed t).
Proof. constructor. Qed.

(** A call that returns success went through COMMIT: it targeted an
    existing product with a positive integer quantity within its stock,
    deducted it and appended the CONFIRMED row. *)
Lemma placeOrder_success_inv (env : Env) (productId quantity : JsNumber)
      (s s' : Server) (order : OrderView) :
  placeOrder env productId quantity s = (Returned (OrderCreated order), s') ->
  exists r q p,
    pg_integer productId = Some r /\
    pg_integer quantity = Some q /\
    select_product r (tables s) = Some p /\
    0 < q <= p_stock p /\
    order = order_view (confirmed_row env s r q) /\
    orders (tables s') = orders (tables s) ++ [confirmed_row env s r q] /\
    select_product r (tables s')
    = Some (mkProduct (p_id p) (p_name p) (p_stock p - q) (p_created_at p)) /\
    (forall r', r' <> r -> select_product r' (tables s') = select_product r' (tables s)).
Proof.
  intros Hcall.
  pose proof (placeOrder_cases env productId quantity s) as Hc.
  rewrite Hcall in Hc; simpl in Hc.
  inversion Hc as [res st Htab Hfail|r q p n ps Hr Hq Hsel Hrange Hup Hres Hst]; subst.
  - specialize (Hfail _ eq_refl). discriminate.
  - exists r, q, p. repeat split; try assumption; try lia.
    + unfold select_product; simpl.
      now destruct (update_stock_target q r _ ps n p Hsel ltac:(lia) Hup).
    + intros r' Hr'. unfold select_product; simpl.
      now apply update_stock_other with (1 := Hr') (2 := Hup).
Qed.

(** A call that does not return success leaves the committed tables alone. *)
Lemma placeOrder_refused (env : Env) (productId quantity : JsNumber)
      (s s' : Server) (result : outcome PlaceOrderResult) :
  placeOrder env productId quantity s = (result, s') ->
  (forall order, result <> Returned (OrderCreated order)) ->
  tables s' = tables s.
Proof.
  intros Hcall Hno.
  pose proof (placeOrder_cases env productId quantity s) as Hc.
  rewrite Hcall in Hc; simpl in Hc.
  inversion Hc; subst; [assumption|].
  exfalso. eapply Hno. reflexivity.
Qed.

(** ** Failure atomicity *)

(** C2. Every call of placeOrder that returns an unsuccessful result, of
    whatever kind and whatever failed on the way, leaves the products
    table (hence every stock) and the orders table exactly as they were
    before the call.  (Only the sequence behind orders.id, which is not
    part of a transaction, may have moved on.) *)
Theorem placeOrder_unsuccessful_no_mutation
        (env : Env) (productId quantity : JsNumber) (s s' : Server)
        (result : PlaceOrderResult) :
  placeOrder env productId quantity s = (Returned result, s') ->
  success result = false ->
  products (tables s') = products (tables s) /\
  orders (tables s') = orders (tables s).
Proof.
  intros Hcall Hfail.
  assert (Htab : tables s' = tables s).
  { apply (placeOrder_refused _ _ _ _ _ _ Hcall).
    intros order [= ->]. discriminate. }
  now rewrite Htab.
Qed.

Lemma placeOrder_unsuccessful_no_mutation_witness :
  let commit_fails := mkEnv 7 [false; false; false; false; false; true] in
  let after := mkServer (tables sample_data) 2 in
  placeOrder commit_fails (js_of_int 4) (js_of_int 3) sample_data
  = (Returned InternalError, after) /\
  products (tables after) = products (tables sample_data) /\
  orders (tables after) = orders (tables sample_data).
Proof.
  split; [reflexivity|].
  apply (placeOrder_unsuccessful_no_mutation
           (mkEnv 7 [false; false; false; false; false; true])
           (js_of_int 4) (js_of_int 3) sample_data
           (mkServer (tables sample_data) 2) InternalError); reflexivity.
Defined.

(** A call that rejects (the pool hands out no client) changes nothing
    either. *)
Lemma placeOrder_rejected_no_mutation
      (env : Env) (productId quantity : JsNumber) (s s' : Server) (e : PgError) :
  placeOrder env productId quantity s = (Thrown e, s') ->
  tables s' = tables s.
Proof.
  intros Hcall. apply (placeOrder_refused _ _ _ _ _ _ Hcall). discriminate.
Qed.

(** ** The ledger is written on the success path only *)

(** C10. One call of placeOrder either does not return success and leaves
    the ledger as it was, or returns success and appends exactly one
    entry: that entry has status CONFIRMED, it is the order of the result,
    and the stock of its product went down by its quantity. *)
Theorem placeOrder_ledger_entry_only_on_success
        (env : Env) (productId quantity : JsNumber) (s : Server) :
  let (result, s') := placeOrder env productId quantity s in
  (orders (tables s') = orders (tables s) /\
   forall order, result <> Returned (OrderCreated order))
  \/
  (exists row before,
      orders (tables s') = orders (tables s) ++ [row] /\
      o_status row = CONFIRMED /\
      result = Returned (OrderCreated (order_view row)) /\
      stock_of (o_product_id row) s = Some before /\
      0 < o_quantity row <= before /\
      stock_of (o_product_id row) s' = Some (before - o_quantity row)).
Proof.
  destruct (placeOrder env productId quantity s) as [result s'] eqn:Hcall.
  destruct result as [[order| | | | |]|e].
  2-7: left; split; [|discriminate];
       now rewrite (placeOrder_refused _ _ _ _ _ _ Hcall ltac:(discriminate)).
  right.
  destruct (placeOrder_success_inv _ _ _ _ _ _ Hcall)
    as (r & q & p & _ & _ & Hsel & Hrange & -> & Hord & Hsel' & _).
  exists (confirmed_row env s r q), (p_stock p); simpl.
  unfold stock_of. rewrite Hsel, Hsel'. simpl. repeat split; auto; lia.
Qed.

(** ** Validation order and invalid quantities *)

(** C3, as the spec states it, fails: with a product id that names no
    product and quantity 0 the call answers PRODUCT_NOT_FOUND, not
    INVALID_QUANTITY. *)
Lemma quantity_check_not_first_counterexample :
  (0 <= 0)%Q /\
  select_product 99 (tables sample_data) = None /\
  placeOrder (undisturbed 7) (js_of_int 99) 0%Q sample_data
  = (Returned ProductNotFound, sample_data) /\
  Returned ProductNotFound <> Returned InvalidQuantity.
Proof.
  repeat split; try reflexivity; discriminate.
Qed.

(** C3, amended.  The existence check comes first: for a product id that
    is an integer within the range of INTEGER and a quantity <= 0, an
    undisturbed call answers INVALID_QUANTITY when the product exists and
    PRODUCT_NOT_FOUND when it does not; the tables are unchanged in both
    cases. *)
Theorem placeOrder_nonpositive_quantity
        (env : Env) (productId quantity : JsNumber) (r : Z) (s : Server) :
  no_faults env ->
  pg_integer productId = Some r ->
  int4 r ->
  (quantity <= 0)%Q ->
  let (result, s') := placeOrder env productId quantity s in
  result = Returned (match select_product r (tables s) with
                     | Some _ => InvalidQuantity
                     | None => ProductNotFound
                     end) /\
  tables s' = tables s.
Proof.
  intros Hcalm Hid _ Hle.
  rewrite (placeOrder_no_faults env productId quantity s Hcalm).
  unfold placeOrder_undisturbed. rewrite Hid.
  apply js_le_spec in Hle.
  destruct (select_product r (tables s)); [rewrite Hle|]; now split.
Qed.

Lemma placeOrder_nonpositive_quantity_witness :
  (let (result, s') := placeOrder (undisturbed 7) (js_of_int 4) (-1 # 1) sample_data in
   result = Returned InvalidQuantity /\ tables s' = tables sample_data) /\
  (let (result, s') := placeOrder (undisturbed 7) (js_of_int 99) (-1 # 1) sample_data in
   result = Returned ProductNotFound /\ tables s' = tables sample_data).
Proof.
  split.
  - apply (placeOrder_nonpositive_quantity
             (undisturbed 7) (js_of_int 4) (-1 # 1) 4 sample_data);
      [apply undisturbed_no_faults|reflexivity|unfold int4; lia|discriminate].
  - apply (placeOrder_nonpositive_quantity
             (undisturbed 7) (js_of_int 99) (-1 # 1) 99 sample_data);
      [apply undisturbed_no_faults|reflexivity|unfold int4; lia|discriminate].
Defined.

(** C4, as the spec states it, fails: quantity 2.5 on the Monitor (stock
    5) is not answered INVALID_QUANTITY.  Neither the controller nor the
    service tests for an integer; the UPDATE's parameter is refused by the
    database and the call ends in INTERNAL_ERROR. *)
Lemma non_integer_quantity_counterexample :
  pg_integer (5 # 2) = None /\
  placeOrder (undisturbed 7) (js_of_int 4) (5 # 2) sample_data
  = (Returned InternalError, sample_data) /\
  controller_placeOrder (undisturbed 7)
    (mkRequestBody (JsNumberValue (js_of_int 4)) (JsNumberValue (5 # 2))) sample_data
  = (Returned (ServiceResult InternalError), sample_data) /\
  code InternalError <> code InvalidQuantity.
Proof.
  repeat split; try reflexivity; discriminate.
Qed.

(** C4, amended.  For an existing product and a quantity that is not an
    integer, an undisturbed call mutates nothing and never succeeds; it
    answers INVALID_QUANTITY only when the quantity is <= 0, answers
    INSUFFICIENT_STOCK when the quantity exceeds the stock, and otherwise
    ends in INTERNAL_ERROR. *)
Theorem placeOrder_non_integer_quantity
        (env : Env) (productId quantity : JsNumber) (r : Z) (p : Product) (s : Server) :
  no_faults env ->
  pg_integer productId = Some r ->
  select_product r (tables s) = Some p ->
  pg_integer quantity = None ->
  let (result, s') := placeOrder env productId quantity s in
  result = Returned (if js_le quantity 0%Q then InvalidQuantity
                     else if js_lt (js_of_int (p_stock p)) quantity
                          then InsufficientStock (p_stock p)
                          else InternalError) /\
  tables s' = tables s.
Proof.
  intros Hcalm Hid Hsel Hfrac.
  rewrite (placeOrder_no_faults env productId quantity s Hcalm).
  unfold placeOrder_undisturbed. rewrite Hid, Hsel, Hfrac.
  destruct (js_le quantity 0%Q); [now split|].
  destruct (js_lt (js_of_int (p_stock p)) quantity); now split.
Qed.

Lemma placeOrder_non_integer_quantity_witness :
  let (result, s') := placeOrder (undisturbed 7) (js_of_int 4) (5 # 2) sample_data in
  result = Returned InternalError /\ tables s' = tables sample_data.
Proof.
  apply (placeOrder_non_integer_quantity
           (undisturbed 7) (js_of_int 4) (5 # 2) 4 (mkProduct 4 "Monitor" 5 0) sample_data);
    [apply undisturbed_no_faults|reflexivity|reflexivity|reflexivity].
Defined.

(** The controller's own validation answers a quantity <= 0 before the
    service runs, but only after it accepted the product id. *)
Lemma controller_nonpositive_quantity
      (env : Env) (productId quantity : JsNumber) (s : Server) :
  (quantity <= 0)%Q ->
  controller_placeOrder env
    (mkRequestBody (JsNumberValue productId) (JsNumberValue quantity)) s
  = (Returned (BadRequest (if js_le productId 0%Q
                           then "INVALID_PRODUCT_ID" else "INVALID_QUANTITY")), s).
Proof.
  intros Hle. apply js_le_spec in Hle.
  unfold controller_placeOrder; simpl.
  destruct (js_le productId 0%Q); [reflexivity|now rewrite Hle].
Qed.

(** Two positive numbers pass the controller's validation, integers or
    not, and the service's result is what is sent. *)
Lemma controller_passes_positive_numbers
      (env : Env) (productId quantity : JsNumber) (s : Server) :
  (0 < productId)%Q -> (0 < quantity)%Q ->
  controller_placeOrder env
    (mkRequestBody (JsNumberValue productId) (JsNumberValue quantity)) s
  = match placeOrder env productId quantity s with
    | (Returned result, s') => (Returned (ServiceResult result), s')
    | (Thrown e, s') => (Thrown e, s')
    end.
Proof.
  intros Hp Hq. unfold controller_placeOrder; simpl.
  destruct (js_le productId 0%Q) eqn:E1.
  { apply js_le_spec in E1. exfalso. exact (Qlt_not_le _ _ Hp E1). }
  destruct (js_le quantity 0%Q) eqn:E2.
  { apply js_le_spec in E2. exfalso. exact (Qlt_not_le _ _ Hq E2). }
  reflexivity.
Qed.

(** ** Sufficient and insufficient stock *)




(** ** The granted allocation *)



(** ** deductStock *)

Lemma view_set_view (d : Database) (c : Client) : view (set_view d c) = d.
Proof.
  unfold view, set_view.
  destruct (working c) eqn:E; cbn; [reflexivity|now rewrite E].
Qed.

(** [client_query] when the query is not hit: the statement runs, on the
    same tables. *)
Lemma client_query_runs {A} (stmt : Js A) (c : Client) :
  next_query_runs c ->
  exists c0, client_query stmt c = stmt c0 /\ view c0 = view c.
Proof.
  unfold next_query_runs, client_query.
  destruct (pending_faults c) as [|[] fs]; simpl; intros H.
  - now exists c.
  - discriminate.
  - now exists (set_pending_faults fs c).
Qed.

(** C7, as the spec states it, fails: "every amount" includes amounts
    that are not integers.  deductStock(4, 2.5) on the Monitor, whose
    stock 5 covers 2.5, neither decreases the stock nor reports success or
    failure: the database refuses the UPDATE's parameter and the call
    throws. *)
Lemma deductStock_fractional_amount_counterexample :
  let c := mkClient (tables sample_data) (Some (tables sample_data)) 7 1 [] in
  (5 # 2 <= js_of_int 5)%Q /\
  select_product 4 (view c) = Some (mkProduct 4 "Monitor" 5 0) /\
  deductStock (js_of_int 4) (5 # 2) c = (Thrown InvalidTextRepresentation, c).
Proof.
  repeat split. unfold Qle; simpl; lia.
Qed.

(** C7, amended.  On a client whose query runs, for an existing product
    with stock s (the only row under its id, by the primary key; id and
    stock within INTEGER): for an integer amount a within INTEGER, with
    s - a within INTEGER when s >= a, deductStock reports success exactly
    when s >= a, and the stock is then s - a; when s < a it reports
    failure and the tables are unchanged.  For an amount that is not an
    integer it reports neither: it throws, and the tables are unchanged. *)
Theorem deductStock_iff
        (c : Client) (productId quantityToDeduct : JsNumber) (r : Z) (p : Product) :
  next_query_runs c ->
  products_primary_key (view c) ->
  pg_integer productId = Some r ->
  int4 r ->
  select_product r (view c) = Some p ->
  int4 (p_stock p) ->
  let (result, c') := deductStock productId quantityToDeduct c in
  (forall a,
      pg_integer quantityToDeduct = Some a ->
      int4 a ->
      (a <= p_stock p -> int4 (p_stock p - a)) ->
      (result = Returned true <-> a <= p_stock p) /\
      (a <= p_stock p ->
       option_map p_stock (select_product r (view c')) = Some (p_stock p - a)) /\
      (p_stock p < a -> result = Returned false /\ view c' = view c)) /\
  (pg_integer quantityToDeduct = None ->
   result = Thrown InvalidTextRepresentation /\ view c' = view c).
Proof.
  intros Hruns Hpk Hid _ Hsel _.
  unfold deductStock.
  destruct (client_query_runs
              (fun c =>
                 match pg_integer quantityToDeduct, pg_integer productId with
                 | Some amount, Some id =>
                     match update_stock amount id (products (view c)) with
                     | inl e => (Thrown e, c)
                     | inr (rowCount, ps) =>
                         (Returned (0 <? rowCount)%nat,
                          set_view (mkDatabase ps (orders (view c))) c)
                     end
                 | _, _ => (Thrown InvalidTextRepresentation, c)
                 end) c Hruns) as (c0 & -> & Hview).
  rewrite Hid, Hview.
  destruct (pg_integer quantityToDeduct) as [amount|].
  - destruct (update_stock_total amount r (products (view c))) as (n & ps & Hup).
    rewrite Hup. rewrite view_set_view.
    split; [|discriminate].
    intros a [= <-] _ _.
    destruct (Z.le_gt_cases amount (p_stock p)) as [Hle|Hlt].
    + destruct (update_stock_target amount r _ ps n p Hsel Hle Hup) as [Hn Hfind].
      destruct n as [|n]; [lia|]. simpl.
      split; [tauto|]. split; [|lia].
      intros _. unfold select_product; simpl. now rewrite Hfind.
    + rewrite (update_stock_short amount r _ p Hpk Hsel Hlt) in Hup.
      injection Hup as <- <-. simpl.
      split; [split; [discriminate|lia]|].
      split; [lia|]. intros _. split; [reflexivity|].
      now destruct (view c).
  - split; [discriminate|]. intros _. now split.
Qed.

Lemma deductStock_iff_witness :
  let c := mkClient (tables sample_data) (Some (tables sample_data)) 7 1 [] in
  let (result, c') := deductStock (js_of_int 4) (js_of_int 3) c in
  (forall a,
      pg_integer (js_of_int 3) = Some a ->
      int4 a ->
      (a <= 5 -> int4 (5 - a)) ->
      (result = Returned true <-> a <= 5) /\
      (a <= 5 -> option_map p_stock (select_product 4 (view c')) = Some (5 - a)) /\
      (5 < a -> result = Returned false /\ view c' = view c)) /\
  (pg_integer (js_of_int 3) = None ->
   result = Thrown InvalidTextRepresentation /\ view c' = view c).
Proof.
  apply (deductStock_iff
           (mkClient (tables sample_data) (Some (tables sample_data)) 7 1 [])
           (js_of_int 4) (js_of_int 3) 4 (mkProduct 4 "Monitor" 5 0)).
  - reflexivity.
  - unfold products_primary_key; simpl.
    repeat (apply NoDup_cons; [simpl; lia|]). apply NoDup_nil.
  - reflexivity.
  - unfold int4; lia.
  - reflexivity.
  - unfold int4; simpl; lia.
Defined.

(** ** Scenario A *)






Example scenario_A_on_sample_data :
  run_calls [mkCall (undisturbed 1) (js_of_int 4) (js_of_int 3);
             mkCall (undisturbed 2) (js_of_int 4) (js_of_int 3);
             mkCall (undisturbed 3) (js_of_int 4) (js_of_int 2)]
            sample_data
  = ([Returned (OrderCreated (mkOrderView 1 4 3 CONFIRMED 1));
      Returned (InsufficientStock 2);
      Returned (OrderCreated (mkOrderView 2 4 2 CONFIRMED 3))],
     mkServer
       (mkDatabase
          [mkProduct 1 "Laptop" 10 0; mkProduct 2 "Mouse" 50 0;
           mkProduct 3 "Keyboard" 30 0; mkProduct 4 "Monitor" 0 0;
           mkProduct 5 "USB Cable" 100 0]
          [mkOrderRow 1 4 3 CONFIRMED 1; mkOrderRow 2 4 2 CONFIRMED 3])
       3).
Proof. reflexivity. Qed.

(** ** findAll *)

Lemma insert_by_created_at_perm (x : OrderWithProduct) (l : list OrderWithProduct) :
  Permutation (x :: l) (insert_by_created_at x l).
Proof.
  induction l as [|y l IH]; simpl; [reflexivity|].
  destruct (newer_or_same x y); [reflexivity|].
  rewrite perm_swap. now constructor.
Qed.

Lemma order_by_created_at_desc_perm (l : list OrderWithProduct) :
  Permutation l (order_by_created_at_desc l).
Proof.
  induction l as [|x l IH]; simpl; [constructor|].
  rewrite <- insert_by_created_at_perm. now constructor.
Qed.

Lemma insert_by_created_at_sorted (x : OrderWithProduct) (l : list OrderWithProduct) :
  newest_first l -> newest_first (insert_by_created_at x l).
Proof.
  unfold newest_first.
  induction l as [|y l IH]; simpl; intros Hs.
  - repeat constructor.
  - inversion Hs as [|? ? Hl Hy]; subst.
    unfold newer_or_same.
    destruct (Z.leb_spec (j_created_at y) (j_created_at x)) as [Hle|Hgt].
    + constructor; [assumption|].
      constructor; [assumption|].
      eapply Forall_impl; [|exact Hy]. simpl. intros; lia.
    + constructor; [now apply IH|].
      eapply Permutation_Forall; [apply insert_by_created_at_perm|].
      constructor; [lia|assumption].
Qed.

Lemma order_by_created_at_desc_sorted (l : list OrderWithProduct) :
  newest_first (order_by_created_at_desc l).
Proof.
  induction l as [|x l IH]; simpl; [constructor|].
  now apply insert_by_created_at_sorted.
Qed.

Lemma in_join_orders_products (d : Database) (e : OrderWithProduct) :
  In e (join_orders_products d) <->
  exists o p, In o (orders d) /\ In p (products d) /\
              o_product_id o = p_id p /\ e = join_row o p.
Proof.
  unfold join_orders_products. rewrite in_flat_map. split.
  - intros (o & Ho & He). apply in_map_iff in He as (p & <- & Hp).
    apply filter_In in Hp as [Hp Heq]. apply Z.eqb_eq in Heq.
    now exists o, p.
  - intros (o & p & Ho & Hp & Heq & ->).
    exists o. split; [assumption|].
    apply in_map, filter_In. split; [assumption|now apply Z.eqb_eq].
Qed.

(** C9. Whatever the tables hold, the listing of findAll is ordered by
    creation time, newest first; its entries are exactly the rows of the
    join of orders with products; and each entry shows an order of the
    ledger together with the name of the product that order refers to. *)
Theorem findAll_newest_first_with_product_name (s : Server) :
  newest_first (findAll s) /\
  Permutation (join_orders_products (tables s)) (findAll s) /\
  (forall e, In e (findAll s) ->
     exists o p,
       In o (orders (tables s)) /\ In p (products (tables s)) /\
       p_id p = o_product_id o /\
       order_of_entry e = o /\
       j_created_at e = o_created_at o /\
       j_product_name e = p_name p).
Proof.
  unfold findAll. split; [|split].
  - apply order_by_created_at_desc_sorted.
  - apply order_by_created_at_desc_perm.
  - intros e He.
    apply (Permutation_in _ (Permutation_sym (order_by_created_at_desc_perm _))) in He.
    apply in_join_orders_products in He as (o & p & Ho & Hp & Heq & ->).
    exists o, p. repeat split; auto. now destruct o.
Qed.

(** Under the primary key a product id selects one row of the join. *)
Lemma find_unique_filter (id : Z) (ps : list Product) (p : Product) :
  NoDup (map p_id ps) ->
  find (fun p => p_id p =? id) ps = Some p ->
  filter (fun p => id =? p_id p) ps = [p].
Proof.
  induction ps as [|x ps IH]; simpl; intros Hnd Hfind; [discriminate|].
  inversion Hnd as [|? ? Hnotin Hnd']; subst.
  rewrite (Z.eqb_sym id). destruct (Z.eqb_spec (p_id x) id) as [Hid|Hid].
  - injection Hfind as ->. f_equal.
    clear IH Hnd Hnd'. induction ps as [|y ps IHps]; simpl; [reflexivity|].
    simpl in Hnotin.
    destruct (Z.eqb_spec id (p_id y)); [exfalso; apply Hnotin; left; lia|].
    apply IHps. tauto.
  - now apply IH.
Qed.

(** Under the primary key of products and the foreign key of orders the
    join keeps every order exactly once: the listing is the ledger,
    reordered. *)
Lemma findAll_lists_the_ledger (s : Server) :
  products_primary_key (tables s) ->
  orders_foreign_key (tables s) ->
  Permutation (orders (tables s)) (map order_of_entry (findAll s)).
Proof.
  intros Hpk Hfk. unfold findAll.
  rewrite <- (Permutation_map order_of_entry (order_by_created_at_desc_perm _)).
  unfold join_orders_products, orders_foreign_key, products_primary_key in *.
  destruct (tables s) as [ps os]; simpl in *.
  induction os as [|o os IH]; simpl; [constructor|].
  assert (Ho : select_product (o_product_id o) (mkDatabase ps (o :: os)) <> None)
    by (apply Hfk; now left).
  unfold select_product in Ho; simpl in Ho.
  destruct (find (fun p => p_id p =? o_product_id o) ps) as [p|] eqn:Hfind;
    [|contradiction].
  rewrite (find_unique_filter _ _ _ Hpk Hfind). simpl.
  replace (order_of_entry (join_row o p)) with o by now destruct o.
  constructor. apply IH.
  intros o' Ho'. specialize (Hfk o' (or_intror Ho')). exact Hfk.
Qed.

(** ** Conservation of stock over a sequence of calls *)

Section Conservation.

(** The resource under observation; the calls may target any product. *)
Variable r : Z.

Lemma confirmed_quantity_app (os : list OrderRow) (o : OrderRow) :
  confirmed_quantity r (os ++ [o])
  = confirmed_quantity r os
    + (if (o_product_id o =? r) && String.eqb (o_status o) CONFIRMED
       then o_quantity o else 0).
Proof.
  unfold confirmed_quantity.
  induction os as [|x os IH]; simpl.
  - destruct ((o_product_id o =? r) && String.eqb (o_status o) CONFIRMED); lia.
  - rewrite IH.
    destruct ((o_product_id x =? r) && String.eqb (o_status x) CONFIRMED); lia.
Qed.

(** One call, seen from resource [r]: the stock stays non-negative, and
    what it loses is what the ledger gains in CONFIRMED quantity against
    [r], which is the quantity the call was granted. *)
Lemma placeOrder_conserves (st : Z) (c : Call) (s : Server) :
  stock_of r s = Some st ->
  0 <= st ->
  let (result, s') :=
    placeOrder (call_env c) (call_productId c) (call_quantity c) s in
  exists st',
    stock_of r s' = Some st' /\
    0 <= st' <= st /\
    confirmed_quantity r (orders (tables s'))
    = confirmed_quantity r (orders (tables s)) + (st - st') /\
    (granted r c result == js_of_int (st - st'))%Q.
Proof.
  intros Hst Hpos.
  destruct (placeOrder (call_env c) (call_productId c) (call_quantity c) s)
    as [result s'] eqn:Hcall.
  assert (Hsame : (forall order, result <> Returned (OrderCreated order)) ->
                  exists st',
                    stock_of r s' = Some st' /\ 0 <= st' <= st /\
                    confirmed_quantity r (orders (tables s'))
                    = confirmed_quantity r (orders (tables s)) + (st - st') /\
                    (granted r c result == js_of_int (st - st'))%Q).
  { intros Hno. pose proof (placeOrder_refused _ _ _ _ _ _ Hcall Hno) as Htab.
    exists st. unfold stock_of. rewrite Htab. fold (stock_of r s).
    repeat split; try assumption; try lia.
    rewrite Z.sub_diag. unfold granted.
    destruct result as [[order| | | | |]|e]; try reflexivity.
    exfalso. now apply (Hno order). }
  destruct result as [[order| | | | |]|e]; try (apply Hsame; discriminate).
  clear Hsame.
  destruct (placeOrder_success_inv _ _ _ _ _ _ Hcall)
    as (r0 & q & p & Hid & Hq & Hsel & Hrange & -> & Hord & Hsel' & Hother).
  unfold granted. rewrite Hid, Hord, confirmed_quantity_app.
  cbn [confirmed_row o_product_id o_status o_quantity].
  rewrite String.eqb_refl, andb_true_r.
  destruct (Z.eqb_spec r0 r) as [->|Hne].
  - assert (p_stock p = st) as <- by (unfold stock_of in Hst; rewrite Hsel in Hst; now injection Hst).
    exists (p_stock p - q). unfold stock_of. rewrite Hsel'. simpl.
    repeat split; try lia.
    rewrite (pg_integer_sound _ _ Hq). unfold js_of_int.
    now replace (p_stock p - (p_stock p - q)) with q by lia.
  - exists st. unfold stock_of. rewrite (Hother r) by congruence. fold (stock_of r s).
    repeat split; try assumption; try lia.
    now rewrite Z.sub_diag.
Qed.

Lemma run_calls_conserves (calls : list Call) :
  forall (s : Server) (st : Z),
    stock_of r s = Some st ->
    0 <= st ->
    let (results, s') := run_calls calls s in
    exists st',
      stock_of r s' = Some st' /\
      0 <= st' <= st /\
      confirmed_quantity r (orders (tables s'))
      = confirmed_quantity r (orders (tables s)) + (st - st') /\
      (granted_total r calls results == js_of_int (st - st'))%Q.
Proof.
  induction calls as [|c calls IH]; intros s st Hst Hpos; simpl.
  - exists st. repeat split; try assumption; try lia.
    now rewrite Z.sub_diag.
  - pose proof (placeOrder_conserves st c s Hst Hpos) as Hstep.
    destruct (placeOrder (call_env c) (call_productId c) (call_quantity c) s)
      as [result s1].
    destruct Hstep as (st1 & Hst1 & Hrange1 & Hconf1 & Hgrant1).
    specialize (IH s1 st1 Hst1 ltac:(lia)).
    destruct (run_calls calls s1) as [results s2].
    destruct IH as (st2 & Hst2 & Hrange2 & Hconf2 & Hgrant2).
    exists st2. repeat split; try assumption; try lia.
    simpl. rewrite Hgrant1, Hgrant2. unfold js_of_int.
    rewrite <- inject_Z_plus.
    now replace (st - st1 + (st1 - st2)) with (st - st2) by lia.
Qed.

(** C1. From a state in which resource r has quantity Q0 >= 0 and no
    confirmed allocation yet, after each call of any finite sequence of
    placeOrder calls (any product ids, any quantities, any failures on
    the way): the quantity of r is Q0 minus the sum of the quantities of
    the CONFIRMED ledger entries against r; it is not negative; and the
    quantities of the calls that returned success against r sum to at
    most Q0. *)
Theorem stock_conservation
        (s0 : Server) (Q0 : Z) (calls : list Call) (k : nat) :
  stock_of r s0 = Some Q0 ->
  0 <= Q0 ->
  confirmed_quantity r (orders (tables s0)) = 0 ->
  let (results, s) := run_calls (firstn k calls) s0 in
  stock_of r s = Some (Q0 - confirmed_quantity r (orders (tables s))) /\
  0 <= Q0 - confirmed_quantity r (orders (tables s)) /\
  (granted_total r (firstn k calls) results <= js_of_int Q0)%Q.
Proof.
  intros Hst Hpos Hnone.
  pose proof (run_calls_conserves (firstn k calls) s0 Q0 Hst Hpos) as Hrun.
  destruct (run_calls (firstn k calls) s0) as [results s].
  destruct Hrun as (st & Hst' & Hrange & Hconf & Hgrant).
  rewrite Hconf, Hnone, Hgrant.
  replace (Q0 - (0 + (Q0 - st))) with st by lia.
  repeat split; try assumption; try lia.
  unfold js_of_int. rewrite <- Zle_Qle. lia.
Qed.

End Conservation.

Lemma stock_conservation_witness :
  let calls :=
    [mkCall (undisturbed 1) (js_of_int 4) (js_of_int 3);
     mkCall (mkEnv 2 [false; false; false; false; false; true]) (js_of_int 4) (js_of_int 1);
     mkCall (undisturbed 3) (js_of_int 2) (js_of_int 7);
     mkCall (undisturbed 4) (js_of_int 4) (js_of_int 3);
     mkCall (undisturbed 5) (js_of_int 4) (js_of_int 2)] in
  let (results, s) := run_calls (firstn 4 calls) sample_data in
  stock_of 4 s = Some (5 - confirmed_quantity 4 (orders (tables s))) /\
  0 <= 5 - confirmed_quantity 4 (orders (tables s)) /\
  (granted_total 4 (firstn 4 calls) results <= js_of_int 5)%Q.
Proof.
  apply (stock_conservation 4 sample_data 5
           [mkCall (undisturbed 1) (js_of_int 4) (js_of_int 3);
            mkCall (mkEnv 2 [false; false; false; false; false; true])
                   (js_of_int 4) (js_of_int 1);
            mkCall (undisturbed 3) (js_of_int 2) (js_of_int 7);
            mkCall (undisturbed 4) (js_of_int 4) (js_of_int 3);
            mkCall (undisturbed 5) (js_of_int 4) (js_of_int 2)]
           4%nat);
    [reflexivity|lia|reflexivity].
Defined.

(** * Further properties of the code *)

(** ** What the stock UPDATE keeps *)

(** The UPDATE changes stocks only: ids, names and creation times stay,
    row by row. *)
Lemma update_stock_keeps_rows (amount id : Z) (ps ps' : list Product) (n : nat) :
  update_stock amount id ps = inr (n, ps') ->
  map p_id ps' = map p_id ps /\
  map p_name ps' = map p_name ps /\
  map p_created_at ps' = map p_created_at ps.
Proof.
  revert n ps'; induction ps as [|p ps IH]; simpl; intros n ps'.
  - now intros [= <- <-].
  - destruct (update_stock amount id ps) as [e|[m rest]]; [discriminate|].
    destruct (IH m rest eq_refl) as (Hid & Hname & Htime).
    destruct ((p_id p =? id) && (p_stock p >=? amount)).
    + destruct (p_stock p - amount >=? 0); [|discriminate].
      intros [= <- <-]; simpl. now rewrite Hid, Hname, Htime.
    + intros [= <- <-]; simpl. now rewrite Hid, Hname, Htime.
Qed.

(** It keeps CHECK (stock >= 0). *)
Lemma update_stock_keeps_check (amount id : Z) (ps ps' : list Product) (n : nat) :
  Forall (fun p => 0 <= p_stock p) ps ->
  update_stock amount id ps = inr (n, ps') ->
  Forall (fun p => 0 <= p_stock p) ps'.
Proof.
  revert n ps'; induction ps as [|p ps IH]; simpl; intros n ps' Hall.
  - now intros [= <- <-].
  - inversion Hall as [|? ? Hp Hps]; subst.
    destruct (update_stock amount id ps) as [e|[m rest]]; [discriminate|].
    specialize (IH m rest Hps eq_refl).
    destruct ((p_id p =? id) && (p_stock p >=? amount)).
    + destruct (Z.geb_spec (p_stock p - amount) 0); [|discriminate].
      intros [= <- <-]. constructor; [simpl; lia|assumption].
    + intros [= <- <-]. now constructor.
Qed.

Lemma find_some_in_ids (id : Z) (ps : list Product) :
  find (fun p => p_id p =? id) ps <> None <-> In id (map p_id ps).
Proof.
  induction ps as [|p ps IH]; simpl; [tauto|].
  destruct (Z.eqb_spec (p_id p) id) as [Hid|Hid].
  - split; [now left|discriminate].
  - rewrite IH. split; [now right|]. intros [H|H]; [contradiction|assumption].
Qed.

(** ** The id sequence *)

(** The sequence behind orders.id never goes back. *)
Lemma placeOrder_sequence_monotone
      (env : Env) (productId quantity : JsNumber) (s : Server) :
  orders_id_seq s <= orders_id_seq (snd (placeOrder env productId quantity s)).
Proof.
  run_placeOrder.
  destruct (faults env) as [|[] fs]; cbn.
  all: repeat run_step.
  all: lia.
Qed.

(** ** The schema's constraints are kept *)

Lemma placeOrder_keeps_schema
      (env : Env) (productId quantity : JsNumber) (s : Server) :
  schema_ok s -> schema_ok (snd (placeOrder env productId quantity s)).
Proof.
  intros [Hpk Hstock Hopk Hseq Hqty Hfk].
  pose proof (placeOrder_sequence_monotone env productId quantity s) as Hmono.
  pose proof (placeOrder_cases env productId quantity s) as Hc.
  destruct (placeOrder env productId quantity s) as [result s']; simpl in *.
  inversion Hc as [res st Htab Hfail|r q p n ps Hr Hq Hsel Hrange Hup Hres Hst]; subst.
  - unfold products_primary_key, orders_foreign_key, select_product in *.
    constructor; unfold products_primary_key, orders_foreign_key, select_product;
      rewrite ?Htab; try assumption.
    eapply Forall_impl; [|exact Hseq]. simpl. intros; lia.
  - destruct (update_stock_keeps_rows _ _ _ _ _ Hup) as (Hids & _ & _).
    unfold products_primary_key, orders_foreign_key, select_product in *.
    constructor; unfold products_primary_key, orders_foreign_key, select_product;
      simpl.
    + now rewrite Hids.
    + eapply update_stock_keeps_check; eassumption.
    + rewrite map_app; simpl.
      apply (Permutation_NoDup (Permutation_cons_append _ _)).
      constructor; [|assumption].
      intros Hin. apply in_map_iff in Hin as (o & Ho & Hin).
      rewrite Forall_forall in Hseq. specialize (Hseq o Hin). lia.
    + apply Forall_app. split.
      * eapply Forall_impl; [|exact Hseq]. simpl. intros; lia.
      * repeat constructor. simpl. lia.
    + apply Forall_app. split; [assumption|].
      repeat constructor. simpl. lia.
    + intros o Ho. apply in_app_or in Ho as [Ho|[<-|[]]].
      * rewrite find_some_in_ids, Hids, <- find_some_in_ids. now apply Hfk.
      * simpl. rewrite find_some_in_ids, Hids, <- find_some_in_ids.
        unfold select_product in Hsel. now rewrite Hsel.
Qed.

Lemma run_calls_snoc_state (calls : list Call) (c : Call) (s : Server) :
  snd (run_calls (c :: calls) s)
  = snd (run_calls calls
           (snd (placeOrder (call_env c) (call_productId c) (call_quantity c) s))).
Proof.
  simpl.
  destruct (placeOrder (call_env c) (call_productId c) (call_quantity c) s) as [r s1].
  simpl. now destruct (run_calls calls s1).
Qed.

Lemma run_calls_schema_ok (calls : list Call) :
  forall s, schema_ok s -> schema_ok (snd (run_calls calls s)).
Proof.
  induction calls as [|c calls IH]; intros s Hok; [exact Hok|].
  rewrite run_calls_snoc_state. apply IH. now apply placeOrder_keeps_schema.
Qed.

(** X1. The constraints of the schema (primary keys, CHECK (stock >= 0),
    CHECK (quantity > 0), the foreign key, the id sequence ahead of every
    order id) hold after any sequence of placeOrder calls when they held
    before, whatever the calls ask for and whatever fails on the way. *)
Theorem run_calls_keep_schema (calls : list Call) (s : Server) :
  schema_ok s -> schema_ok (snd (run_calls calls s)).
Proof.
  intros Hok.
  destruct (run_calls_schema_ok calls s Hok) as [Hpk Hstock Hopk Hseq Hqty Hfk].
  now constructor.
Qed.

Lemma sample_data_schema_ok : schema_ok sample_data.
Proof.
  constructor; simpl.
  - unfold products_primary_key; simpl.
    repeat (apply NoDup_cons; [simpl; lia|]). apply NoDup_nil.
  - repeat constructor; simpl; lia.
  - constructor.
  - constructor.
  - constructor.
  - intros o [].
Qed.

Lemma run_calls_keep_schema_witness :
  schema_ok
    (snd (run_calls
            [mkCall (undisturbed 1) (js_of_int 4) (js_of_int 3);
             mkCall (mkEnv 2 [false; false; false; false; true]) (js_of_int 1) (js_of_int 2);
             mkCall (undisturbed 3) (js_of_int 4) (5 # 2);
             mkCall (undisturbed 4) (js_of_int 2) (js_of_int 50)]
            sample_data)).
Proof.
  apply (run_calls_keep_schema
           [mkCall (undisturbed 1) (js_of_int 4) (js_of_int 3);
            mkCall (mkEnv 2 [false; false; false; false; true]) (js_of_int 1) (js_of_int 2);
            mkCall (undisturbed 3) (js_of_int 4) (5 # 2);
            mkCall (undisturbed 4) (js_of_int 2) (js_of_int 50)]
           sample_data sample_data_schema_ok).
Defined.

(** ** Rejections and transient failures *)

(** X3. placeOrder rejects only when the pool hands out no client, and
    then the server is untouched; in every other case it returns a result
    object, whatever is thrown inside the try block. *)
Theorem placeOrder_rejects_only_without_client
        (env : Env) (productId quantity : JsNumber) (s : Server) :
  match faults env with
  | true :: _ => placeOrder env productId quantity s = (Thrown ConnectionFailure, s)
  | _ => exists result, fst (placeOrder env productId quantity s) = Returned result
  end.
Proof.
  destruct (faults env) as [|[] fs] eqn:Hf.
  - apply placeOrder_returns. now rewrite Hf.
  - unfold placeOrder, pool_connect. now rewrite Hf.
  - apply placeOrder_returns. now rewrite Hf.
Qed.

(** X4. A transient failure can change the answer of a call in one way
    only: into INTERNAL_ERROR (or, when the pool hands out no client,
    into a rejection); otherwise the answer is the one the same call
    gets undisturbed. *)
Theorem placeOrder_failure_only_internal_error
        (env : Env) (productId quantity : JsNumber) (s : Server) :
  fst (placeOrder env productId quantity s)
  = fst (placeOrder (undisturbed (now env)) productId quantity s)
  \/ fst (placeOrder env productId quantity s) = Returned InternalError
  \/ fst (placeOrder env productId quantity s) = Thrown ConnectionFailure.
Proof.
  rewrite (placeOrder_no_faults (undisturbed (now env)) productId quantity s)
    by apply undisturbed_no_faults.
  unfold placeOrder_undisturbed, confirmed_row, order_view.
  run_placeOrder.
  destruct (faults env) as [|[] fs]; cbn.
  all: repeat run_step.
  all: try (left; reflexivity).
  all: try (right; left; reflexivity).
  all: try (right; right; reflexivity).
  all: exfalso;
    match goal with
    | Hup : update_stock ?q ?r _ = inr (O, _),
      Hsel : select_product ?r _ = Some ?p,
      Hq : pg_integer _ = Some ?q,
      Hle : js_le _ _ = false,
      Hlt : js_lt _ _ = false |- _ =>
        pose proof (guards_passed _ _ _ Hq Hle Hlt) as Hrange;
        destruct (update_stock_target q r _ _ _ p Hsel ltac:(lia) Hup); lia
    end.
Qed.

(** ** What a call never touches *)

(** X5. A call of placeOrder never adds, removes or renames a product,
    and it changes the stock of no product but the one it targets. *)
Theorem placeOrder_touches_only_target_stock
        (env : Env) (productId quantity : JsNumber) (s : Server) :
  let s' := snd (placeOrder env productId quantity s) in
  map p_id (products (tables s')) = map p_id (products (tables s)) /\
  map p_name (products (tables s')) = map p_name (products (tables s)) /\
  map p_created_at (products (tables s')) = map p_created_at (products (tables s)) /\
  (forall r, pg_integer productId <> Some r -> stock_of r s' = stock_of r s).
Proof.
  pose proof (placeOrder_cases env productId quantity s) as Hc.
  destruct (placeOrder env productId quantity s) as [result s']; simpl in *.
  inversion Hc as [res st Htab Hfail|r q p n ps Hr Hq Hsel Hrange Hup Hres Hst]; subst.
  - unfold stock_of. rewrite Htab. auto.
  - destruct (update_stock_keeps_rows _ _ _ _ _ Hup) as (Hids & Hnames & Htimes).
    simpl. repeat split; try assumption.
    intros r' Hr'. unfold stock_of, select_product; simpl.
    rewrite (update_stock_other q r r' (products (tables s)) ps n);
      [reflexivity|congruence|assumption].
Qed.

(** ** The ledger over a sequence of calls *)

Lemma run_calls_ledger (calls : list Call) :
  forall s,
    let (results, s') := run_calls calls s in
    exists added,
      orders (tables s') = orders (tables s) ++ added /\
      Forall (fun o => o_status o = CONFIRMED) added /\
      map order_view added = returned_orders results.
Proof.
  induction calls as [|c calls IH]; intros s; simpl.
  - exists []. now rewrite app_nil_r.
  - destruct (placeOrder (call_env c) (call_productId c) (call_quantity c) s)
      as [result s1] eqn:Hcall.
    specialize (IH s1). destruct (run_calls calls s1) as [results s2].
    destruct IH as (added & Hadd & Hconf & Hview).
    destruct result as [[order| | | | |]|e].
    2-7: exists added; simpl;
         rewrite Hadd, (placeOrder_refused _ _ _ _ _ _ Hcall ltac:(discriminate));
         auto.
    destruct (placeOrder_success_inv _ _ _ _ _ _ Hcall)
      as (r & q & p & _ & _ & _ & _ & -> & Hord & _).
    exists (confirmed_row (call_env c) s r q :: added). simpl.
    rewrite Hadd, Hord, <- app_assoc. simpl.
    repeat split; [now constructor|now rewrite Hview].
Qed.

(** X6. Over any sequence of placeOrder calls the ledger only grows at its
    end: the old entries stay as they are, in place, and the entries
    added are CONFIRMED and are exactly the orders returned by the
    successful calls, in call order. *)
Theorem run_calls_ledger_append_only (calls : list Call) (s : Server) :
  let (results, s') := run_calls calls s in
  exists added,
    orders (tables s') = orders (tables s) ++ added /\
    Forall (fun o => o_status o = CONFIRMED) added /\
    map order_view added = returned_orders results.
Proof.
  pose proof (run_calls_ledger calls s) as Hrun.
  destruct (run_calls calls s) as [results s'].
  destruct Hrun as (added & Hadd & Hconf & Hview).
  exists added. auto.
Qed.

(** X18. On a server that meets the schema's constraints, the successful
    calls of any sequence return orders with pairwise distinct ids, none
    of which was in the ledger before. *)
Theorem returned_order_ids_fresh (calls : list Call) (s : Server) :
  schema_ok s ->
  NoDup (map order_id (returned_orders (fst (run_calls calls s)))) /\
  (forall order, In order (returned_orders (fst (run_calls calls s))) ->
                 ~ In (order_id order) (map o_id (orders (tables s)))).
Proof.
  intros Hok.
  pose proof (ok_orders_pk _ (run_calls_schema_ok calls s Hok)) as Hpk.
  pose proof (run_calls_ledger calls s) as Hrun.
  destruct (run_calls calls s) as [results s']; simpl in *.
  destruct Hrun as (added & Hadd & _ & Hview).
  rewrite Hadd, map_app in Hpk.
  assert (Hids : map order_id (returned_orders results) = map o_id added).
  { rewrite <- Hview, map_map. reflexivity. }
  split.
  - rewrite Hids. now apply NoDup_app_remove_l in Hpk.
  - intros order Hin Hold.
    apply (in_map order_id) in Hin. rewrite Hids in Hin.
    revert Hpk Hin Hold. generalize (map o_id (orders (tables s))) as old.
    generalize (order_id order) as i. generalize (map o_id added) as new.
    intros new i old Hnd Hnew Hold.
    induction old as [|x old IH]; [contradiction|].
    simpl in Hnd. inversion Hnd as [|? ? Hx Hrest]; subst.
    destruct Hold as [->|Hold]; [|now apply IH].
    apply Hx. apply in_or_app. now right.
Qed.

Lemma returned_order_ids_fresh_witness :
  let calls := [mkCall (undisturbed 1) (js_of_int 4) (js_of_int 3);
                mkCall (mkEnv 2 [false; false; false; false; false; true])
                       (js_of_int 1) (js_of_int 2);
                mkCall (undisturbed 3) (js_of_int 4) (js_of_int 2)] in
  NoDup (map order_id (returned_orders (fst (run_calls calls sample_data)))) /\
  (forall order, In order (returned_orders (fst (run_calls calls sample_data))) ->
                 ~ In (order_id order) (map o_id (orders (tables sample_data)))).
Proof.
  apply (returned_order_ids_fresh
           [mkCall (undisturbed 1) (js_of_int 4) (js_of_int 3);
            mkCall (mkEnv 2 [false; false; false; false; false; true])
                   (js_of_int 1) (js_of_int 2);
            mkCall (undisturbed 3) (js_of_int 4) (js_of_int 2)]
           sample_data sample_data_schema_ok).
Defined.

Section Exhausted.

Variable r : Z.

(** X7. Once a resource is at 0 it stays at 0: no call of any later
    sequence is granted anything against it. *)
Theorem exhausted_resource_stays_exhausted (calls : list Call) (s : Server) :
  stock_of r s = Some 0 ->
  let (results, s') := run_calls calls s in
  stock_of r s' = Some 0 /\
  (granted_total r calls results == 0)%Q /\
  confirmed_quantity r (orders (tables s')) = confirmed_quantity r (orders (tables s)).
Proof.
  intros Hst.
  pose proof (run_calls_conserves r calls s 0 Hst ltac:(lia)) as Hrun.
  destruct (run_calls calls s) as [results s'].
  destruct Hrun as (st' & Hst' & Hrange & Hconf & Hgrant).
  assert (st' = 0) by lia. subst st'.
  repeat split; [assumption|exact Hgrant|lia].
Qed.

End Exhausted.

Lemma exhausted_resource_stays_exhausted_witness :
  let s0 := mkServer (mkDatabase [mkProduct 1 "Monitor" 0 0] []) 1 in
  let calls := [mkCall (undisturbed 1) (js_of_int 1) (js_of_int 1);
                mkCall (undisturbed 2) (js_of_int 1) (1 # 2)] in
  let (results, s') := run_calls calls s0 in
  stock_of 1 s' = Some 0 /\
  (granted_total 1 calls results == 0)%Q /\
  confirmed_quantity 1 (orders (tables s')) = confirmed_quantity 1 (orders (tables s0)).
Proof.
  apply (exhausted_resource_stays_exhausted 1
           [mkCall (undisturbed 1) (js_of_int 1) (js_of_int 1);
            mkCall (undisturbed 2) (js_of_int 1) (1 # 2)]
           (mkServer (mkDatabase [mkProduct 1 "Monitor" 0 0] []) 1)).
  reflexivity.
Defined.

(** ** Two calls on one product *)



(** ** The safety net of Step 4 *)

(** X2. With calls run one after another the safety net of Step 4 is
    never used: the row that passed the stock check is the row the UPDATE
    finds, so no call of any sequence answers STOCK_DEDUCTION_FAILED. *)
Theorem run_calls_never_stock_deduction_failed (calls : list Call) (s : Server) :
  Forall (fun result => result <> Returned StockDeductionFailed)
         (fst (run_calls calls s)).
Proof.
  revert s; induction calls as [|c calls IH]; intros s; simpl; [constructor|].
  pose proof (placeOrder_deduction_never_fails
                (call_env c) (call_productId c) (call_quantity c) s) as Hnever.
  destruct (placeOrder (call_env c) (call_productId c) (call_quantity c) s)
    as [result s1].
  specialize (IH s1). destruct (run_calls calls s1) as [results s2].
  simpl in *. now constructor.
Qed.

(** ** The controller in front of the service *)

Lemma placeOrder_invalid_quantity_inv
      (env : Env) (productId quantity : JsNumber) (s : Server) :
  fst (placeOrder env productId quantity s) = Returned InvalidQuantity ->
  js_le quantity 0%Q = true.
Proof.
  run_placeOrder.
  destruct (faults env) as [|[] fs]; cbn.
  all: repeat run_step.
  all: try discriminate.
  all: intros _; reflexivity.
Qed.

(** X9. Through the controller the service's INVALID_QUANTITY and
    STOCK_DEDUCTION_FAILED answers are never sent: the controller has
    answered a quantity <= 0 itself before the service runs. *)
Theorem controller_never_forwards_invalid_quantity
        (env : Env) (body : RequestBody) (s : Server) :
  match fst (controller_placeOrder env body s) with
  | Returned (ServiceResult result) =>
      result <> InvalidQuantity /\ result <> StockDeductionFailed
  | _ => True
  end.
Proof.
  unfold controller_placeOrder.
  destruct (body_productId body) as [|productId|], (body_quantity body) as [|quantity|];
    simpl; try exact I.
  - destruct (js_le productId 0%Q); simpl; [exact I|].
    destruct (js_le quantity 0%Q) eqn:Hq; simpl; [exact I|].
    pose proof (placeOrder_invalid_quantity_inv env productId quantity s) as Hinv.
    pose proof (placeOrder_deduction_never_fails env productId quantity s) as Hnever.
    destruct (placeOrder env productId quantity s) as [[result|e] s']; simpl in *;
      [|exact I].
    split; intros ->; [|now apply Hnever].
    specialize (Hinv eq_refl). congruence.
  - destruct (js_le productId 0%Q); exact I.
Qed.

(** X10. The controller answers a request itself, with status 400 and
    without touching the server, exactly when the body does not hold two
    positive numbers. *)
Theorem controller_answers_itself_iff (env : Env) (body : RequestBody) (s : Server) :
  (exists errorCode,
      controller_placeOrder env body s = (Returned (BadRequest errorCode), s))
  <->
  ~ (exists productId quantity,
        body = mkRequestBody (JsNumberValue productId) (JsNumberValue quantity) /\
        (0 < productId)%Q /\ (0 < quantity)%Q).
Proof.
  destruct body as [pid qty]. split.
  - intros [errorCode Hbad] (productId & quantity & [= -> ->] & Hp & Hq).
    rewrite (controller_passes_positive_numbers env productId quantity s Hp Hq) in Hbad.
    destruct (placeOrder env productId quantity s) as [[result|e] s']; discriminate.
  - intros Hnot. unfold controller_placeOrder; simpl.
    destruct pid as [|productId|], qty as [|quantity|]; eauto.
    all: destruct (js_le productId 0%Q) eqn:Hp; [now eauto|]; eauto.
    destruct (js_le quantity 0%Q) eqn:Hq; [now eauto|].
    exfalso. apply Hnot. exists productId, quantity.
    split; [reflexivity|]. split; apply Qnot_le_lt; rewrite <- js_le_spec; congruence.
Qed.

(** ** ORDER BY *)

Section SortBy.

Context {A : Type} (before : A -> A -> bool).

Lemma insert_sorted_perm (x : A) (l : list A) :
  Permutation (x :: l) (insert_sorted before x l).
Proof.
  induction l as [|y l IH]; simpl; [reflexivity|].
  destruct (before x y); [reflexivity|].
  rewrite perm_swap. now constructor.
Qed.

Lemma sort_by_perm (l : list A) : Permutation l (sort_by before l).
Proof.
  induction l as [|x l IH]; simpl; [constructor|].
  rewrite <- insert_sorted_perm. now constructor.
Qed.

Hypothesis before_total : forall x y, before x y = false -> before y x = true.
Hypothesis before_trans :
  forall x y z, before x y = true -> before y z = true -> before x z = true.

Lemma insert_sorted_sorted (x : A) (l : list A) :
  StronglySorted (fun a b => before a b = true) l ->
  StronglySorted (fun a b => before a b = true) (insert_sorted before x l).
Proof.
  induction l as [|y l IH]; simpl; intros Hs.
  - repeat constructor.
  - inversion Hs as [|? ? Hl Hy]; subst.
    destruct (before x y) eqn:Hxy.
    + constructor; [assumption|].
      constructor; [assumption|].
      eapply Forall_impl; [|exact Hy]. simpl. intros z Hz. now apply before_trans with y.
    + constructor; [now apply IH|].
      eapply Permutation_Forall; [apply insert_sorted_perm|].
      constructor; [now apply before_total|assumption].
Qed.

Lemma sort_by_sorted (l : list A) :
  StronglySorted (fun a b => before a b = true) (sort_by before l).
Proof.
  induction l as [|x l IH]; simpl; [constructor|].
  now apply insert_sorted_sorted.
Qed.

End SortBy.

Lemma StronglySorted_impl {A} (R1 R2 : A -> A -> Prop) (l : list A) :
  (forall x y, R1 x y -> R2 x y) -> StronglySorted R1 l -> StronglySorted R2 l.
Proof.
  intros Himpl. induction 1 as [|x l Hl IH Hx]; constructor; [assumption|].
  eapply Forall_impl; [|exact Hx]. auto.
Qed.

(** ** The read-only functions *)

(** X14. getAllProducts lists every product of the table exactly once, in
    ascending order of id, with count the number of products; it never
    answers 404, and it answers 500 only when its query is rejected. *)
Theorem getAllProducts_ascending (env : Env) (s : Server) :
  match getAllProducts env s with
  | Found listing =>
      Permutation (products (tables s)) (listed listing) /\
      StronglySorted (fun x y => p_id x <= p_id y) (listed listing) /\
      count listing = List.length (products (tables s))
  | Missing _ => False
  | ReadFailed => hd false (faults env) = true
  end.
Proof.
  unfold getAllProducts, ProductRepository.findAll, pool_query.
  assert (Hok : let l := sort_by (fun x y => p_id x <=? p_id y) (products (tables s)) in
                Permutation (products (tables s)) l /\
                StronglySorted (fun x y => p_id x <= p_id y) l /\
                List.length l = List.length (products (tables s))).
  { simpl. split; [apply sort_by_perm|]. split.
    - eapply StronglySorted_impl; [|apply sort_by_sorted].
      + intros x y H. now apply Z.leb_le.
      + intros x y H. apply Z.leb_le. apply Z.leb_gt in H. lia.
      + intros x y z H1 H2. apply Z.leb_le. apply Z.leb_le in H1, H2. lia.
    - symmetry. apply Permutation_length, sort_by_perm. }
  destruct (faults env) as [|[] fs]; simpl; auto.
Qed.

(** X15. For a product id that is not an integer beyond the range of
    INTEGER, findByProductId returns exactly the orders of the ledger
    placed against the product, each once, newest first; it rejects only
    when its query is rejected or the id is not an integer. *)
Theorem findByProductId_newest_first (env : Env) (productId : JsNumber) (s : Server) :
  within_int4 productId ->
  match OrderRepository.findByProductId env productId s with
  | Returned l =>
      exists id,
        pg_integer productId = Some id /\
        Permutation (filter (fun o => o_product_id o =? id) (orders (tables s))) l /\
        StronglySorted (fun x y => o_created_at y <= o_created_at x) l /\
        (forall o, In o l <-> In o (orders (tables s)) /\ o_product_id o = id)
  | Thrown e => hd false (faults env) = true \/ pg_integer productId = None
  end.
Proof.
  intros _.
  unfold OrderRepository.findByProductId, pool_query.
  assert (Hok : forall id,
             let l := sort_by (fun x y => o_created_at y <=? o_created_at x)
                              (filter (fun o => o_product_id o =? id) (orders (tables s))) in
             Permutation (filter (fun o => o_product_id o =? id) (orders (tables s))) l /\
             StronglySorted (fun x y => o_created_at y <= o_created_at x) l /\
             (forall o, In o l <-> In o (orders (tables s)) /\ o_product_id o = id)).
  { intros id; simpl. split; [apply sort_by_perm|]. split.
    - eapply StronglySorted_impl; [|apply sort_by_sorted].
      + intros x y H. now apply Z.leb_le.
      + intros x y H. apply Z.leb_le. apply Z.leb_gt in H. lia.
      + intros x y z H1 H2. apply Z.leb_le. apply Z.leb_le in H1, H2. lia.
    - intros o. split.
      + intros Hin.
        apply (Permutation_in _ (Permutation_sym (sort_by_perm _ _))) in Hin.
        apply filter_In in Hin as [Hin Heq]. split; [assumption|now apply Z.eqb_eq].
      + intros [Hin Heq]. apply (Permutation_in _ (sort_by_perm _ _)).
        apply filter_In. split; [assumption|now apply Z.eqb_eq]. }
  destruct (faults env) as [|[] fs]; simpl; auto;
    destruct (pg_integer productId) as [id|]; simpl; eauto.
Qed.

Lemma js_of_int_within_int4 (z : Z) : int4 z -> within_int4 (js_of_int z).
Proof.
  intros Hz z'. rewrite pg_integer_of_int. now intros [= <-].
Qed.

Lemma findByProductId_newest_first_witness :
  let s := mkServer
             (mkDatabase
                [mkProduct 1 "Laptop" 10 0; mkProduct 4 "Monitor" 0 0]
                [mkOrderRow 1 4 3 CONFIRMED 1; mkOrderRow 2 1 1 CONFIRMED 2;
                 mkOrderRow 3 4 2 CONFIRMED 3])
             4 in
  match OrderRepository.findByProductId (undisturbed 9) (js_of_int 4) s with
  | Returned l =>
      exists id,
        pg_integer (js_of_int 4) = Some id /\
        Permutation (filter (fun o => o_product_id o =? id) (orders (tables s))) l /\
        StronglySorted (fun x y => o_created_at y <= o_created_at x) l /\
        (forall o, In o l <-> In o (orders (tables s)) /\ o_product_id o = id)
  | Thrown e => hd false (faults (undisturbed 9)) = true \/ pg_integer (js_of_int 4) = None
  end.
Proof.
  apply (findByProductId_newest_first (undisturbed 9) (js_of_int 4)
           (mkServer
              (mkDatabase
                 [mkProduct 1 "Laptop" 10 0; mkProduct 4 "Monitor" 0 0]
                 [mkOrderRow 1 4 3 CONFIRMED 1; mkOrderRow 2 1 1 CONFIRMED 2;
                  mkOrderRow 3 4 2 CONFIRMED 3])
              4)).
  apply js_of_int_within_int4. unfold int4; lia.
Defined.

(** X11. On a server that meets the schema's constraints, getAllOrders
    (its query not rejected) lists every order of the ledger exactly
    once, newest first, and its count is the number of orders. *)
Theorem getAllOrders_lists_the_ledger (env : Env) (s : Server) :
  schema_ok s ->
  hd false (faults env) = false ->
  exists listing,
    getAllOrders env s = Found listing /\
    newest_first (listed listing) /\
    Permutation (orders (tables s)) (map order_of_entry (listed listing)) /\
    count listing = List.length (orders (tables s)).
Proof.
  intros Hok Hruns.
  pose proof (findAll_lists_the_ledger s (ok_products_pk s Hok) (ok_orders_fk s Hok))
    as Hperm.
  exists (mkListing (findAll s) (List.length (findAll s))).
  split; [|split; [|split]].
  - unfold getAllOrders, OrderRepository.findAll, pool_query.
    now destruct (faults env) as [|[] fs]; [|discriminate|].
  - apply order_by_created_at_desc_sorted.
  - exact Hperm.
  - simpl. rewrite (Permutation_length Hperm). now rewrite length_map.
Qed.

Lemma getAllOrders_lists_the_ledger_witness :
  let s := snd (placeOrder (undisturbed 9) (js_of_int 4) (js_of_int 3) sample_data) in
  exists listing,
    getAllOrders (undisturbed 10) s = Found listing /\
    newest_first (listed listing) /\
    Permutation (orders (tables s)) (map order_of_entry (listed listing)) /\
    count listing = List.length (orders (tables s)).
Proof.
  apply (getAllOrders_lists_the_ledger (undisturbed 10)
           (snd (placeOrder (undisturbed 9) (js_of_int 4) (js_of_int 3) sample_data))).
  - apply placeOrder_keeps_schema, sample_data_schema_ok.
  - reflexivity.
Defined.

Lemma find_app_new {A} (f : A -> bool) (l : list A) (x : A) :
  find f (l ++ [x])
  = match find f l with
    | Some y => Some y
    | None => if f x then Some x else None
    end.
Proof.
  induction l as [|y l IH]; simpl; [reflexivity|].
  now destruct (f y).
Qed.

Lemma getOrder_runs (env : Env) (id : Z) (s : Server) :
  hd false (faults env) = false ->
  getOrder env (js_of_int id) s
  = match find (fun o => o_id o =? id) (orders (tables s)) with
    | Some order => Found order
    | None => Missing "Order not found"
    end.
Proof.
  intros Hruns.
  unfold getOrder, OrderRepository.findById, pool_query.
  rewrite pg_integer_of_int.
  destruct (faults env) as [|[] fs]; [reflexivity|discriminate|reflexivity].
Qed.

Lemma getProduct_runs (env : Env) (id : Z) (s : Server) :
  hd false (faults env) = false ->
  getProduct env (js_of_int id) s
  = match select_product id (tables s) with
    | Some product =>
        Found (mkProductView (p_id product) (p_name product) (p_stock product)
                             (p_created_at product))
    | None => Missing "Product not found"
    end.
Proof.
  intros Hruns.
  unfold getProduct, ProductRepository.findById, pool_query.
  rewrite pg_integer_of_int.
  destruct (faults env) as [|[] fs]; [reflexivity|discriminate|reflexivity].
Qed.

(** X12. On a server that meets the schema's constraints, the order a
    successful placeOrder returns can be read back: getOrder with its id
    (its query not rejected) finds the CONFIRMED row the result was made
    from; and getOrder finds every older order as before. *)
Theorem getOrder_after_placeOrder
        (env env' : Env) (productId quantity : JsNumber) (s s' : Server)
        (order : OrderView) :
  schema_ok s ->
  placeOrder env productId quantity s = (Returned (OrderCreated order), s') ->
  hd false (faults env') = false ->
  (exists row,
      getOrder env' (js_of_int (order_id order)) s' = Found row /\
      order_view row = order /\ o_status row = CONFIRMED) /\
  (forall o, In o (orders (tables s)) ->
             getOrder env' (js_of_int (o_id o)) s'
             = getOrder env' (js_of_int (o_id o)) s).
Proof.
  intros Hok Hcall Hruns.
  destruct (placeOrder_success_inv _ _ _ _ _ _ Hcall)
    as (r & q & p & _ & _ & _ & _ & -> & Hord & _).
  split.
  - exists (confirmed_row env s r q).
    rewrite (getOrder_runs env' _ s' Hruns), Hord, find_app_new. simpl.
    destruct (find (fun o => o_id o =? orders_id_seq s) (orders (tables s)))
      as [o|] eqn:Hfind.
    + apply find_some in Hfind as [Hin Heq]. apply Z.eqb_eq in Heq.
      pose proof (ok_orders_seq s Hok) as Hseq.
      rewrite Forall_forall in Hseq. specialize (Hseq o Hin). lia.
    + now rewrite Z.eqb_refl.
  - intros o Hin.
    rewrite (getOrder_runs env' _ s' Hruns), (getOrder_runs env' _ s Hruns).
    rewrite Hord, find_app_new.
    destruct (find (fun o0 => o_id o0 =? o_id o) (orders (tables s))) eqn:Hfind;
      [reflexivity|].
    exfalso. apply (find_none _ _ Hfind o) in Hin. now rewrite Z.eqb_refl in Hin.
Qed.

Lemma getOrder_after_placeOrder_witness :
  let s' := mkServer
              (mkDatabase
                 [mkProduct 1 "Laptop" 10 0; mkProduct 2 "Mouse" 50 0;
                  mkProduct 3 "Keyboard" 30 0; mkProduct 4 "Monitor" 2 0;
                  mkProduct 5 "USB Cable" 100 0]
                 [mkOrderRow 1 4 3 CONFIRMED 9])
              2 in
  (exists row,
      getOrder (undisturbed 10) (js_of_int 1) s' = Found row /\
      order_view row = mkOrderView 1 4 3 CONFIRMED 9 /\ o_status row = CONFIRMED) /\
  (forall o, In o (orders (tables sample_data)) ->
             getOrder (undisturbed 10) (js_of_int (o_id o)) s'
             = getOrder (undisturbed 10) (js_of_int (o_id o)) sample_data).
Proof.
  apply (getOrder_after_placeOrder (undisturbed 9) (undisturbed 10)
           (js_of_int 4) (js_of_int 3) sample_data _ (mkOrderView 1 4 3 CONFIRMED 9)
           sample_data_schema_ok); reflexivity.
Defined.

(** X13. What getProduct shows of a product before and after a call of
    placeOrder: the same id, name and creation time, and a stock lower by
    exactly the quantity the call was granted against it (nothing when
    the call failed or targeted another product); a product that was not
    found is not found afterwards, and a rejected read stays rejected. *)
Theorem getProduct_after_placeOrder
        (env env' : Env) (productId quantity : JsNumber) (r : Z) (s : Server) :
  let (result, s') := placeOrder env productId quantity s in
  match getProduct env' (js_of_int r) s with
  | Found before =>
      exists after,
        getProduct env' (js_of_int r) s' = Found after /\
        pv_id after = pv_id before /\
        pv_name after = pv_name before /\
        pv_createdAt after = pv_createdAt before /\
        (js_of_int (pv_stock before - pv_stock after)
         == granted r (mkCall env productId quantity) result)%Q
  | Missing error => getProduct env' (js_of_int r) s' = Missing error
  | ReadFailed => getProduct env' (js_of_int r) s' = ReadFailed
  end.
Proof.
  destruct (placeOrder env productId quantity s) as [result s'] eqn:Hcall.
  destruct (hd false (faults env')) eqn:Hruns.
  { unfold getProduct, ProductRepository.findById, pool_query.
    destruct (faults env') as [|[] fs]; try discriminate. reflexivity. }
  rewrite !(getProduct_runs env' r _ Hruns).
  assert (Hsame : tables s' = tables s ->
                  granted r (mkCall env productId quantity) result = 0%Q ->
                  match
                    match select_product r (tables s) with
                    | Some product =>
                        Found (mkProductView (p_id product) (p_name product)
                                 (p_stock product) (p_created_at product))
                    | None => Missing "Product not found"
                    end
                  with
                  | Found before =>
                      exists after,
                        match select_product r (tables s') with
                        | Some product =>
                            Found (mkProductView (p_id product) (p_name product)
                                     (p_stock product) (p_created_at product))
                        | None => Missing "Product not found"
                        end = Found after /\
                        pv_id after = pv_id before /\
                        pv_name after = pv_name before /\
                        pv_createdAt after = pv_createdAt before /\
                        (js_of_int (pv_stock before - pv_stock after)
                         == granted r (mkCall env productId quantity) result)%Q
                  | Missing error =>
                      match select_product r (tables s') with
                      | Some product =>
                          Found (mkProductView (p_id product) (p_name product)
                                   (p_stock product) (p_created_at product))
                      | None => Missing "Product not found"
                      end = Missing error
                  | ReadFailed => False
                  end).
  { intros -> ->. destruct (select_product r (tables s)) as [p|]; [|reflexivity].
    eexists. split; [reflexivity|]. simpl. now rewrite Z.sub_diag. }
  destruct result as [[order| | | | |]|e];
    try (pose proof (placeOrder_refused _ _ _ _ _ _ Hcall ltac:(discriminate)) as Htab;
         specialize (Hsame Htab eq_refl);
         destruct (select_product r (tables s)); exact Hsame).
  clear Hsame.
  destruct (placeOrder_success_inv _ _ _ _ _ _ Hcall)
    as (r0 & q & p & Hid & Hq & Hsel & Hrange & -> & Hord & Hsel' & Hother).
  unfold granted; simpl. rewrite Hid.
  destruct (Z.eqb_spec r0 r) as [->|Hne].
  - rewrite Hsel, Hsel'. eexists. split; [reflexivity|]. simpl.
    repeat split.
    rewrite (pg_integer_sound _ _ Hq).
    now replace (p_stock p - (p_stock p - q)) with q by lia.
  - rewrite (Hother r) by congruence.
    destruct (select_product r (tables s)) as [p0|]; [|reflexivity].
    eexists. split; [reflexivity|]. simpl. now rewrite Z.sub_diag.
Qed.

(** X16. The status codes of getProduct and getOrder, for an id that is
    not an integer beyond the range of INTEGER: 404 exactly when the
    query ran, the id is an integer and no row has it; 500 exactly when
    the query was rejected or the id is not an integer (a fractional id
    is an internal error, not a missing row); 200 otherwise. *)
Theorem read_status_codes (env : Env) (id : JsNumber) (s : Server) :
  within_int4 id ->
  (read_statusCode (getProduct env id s) = 404 <->
   hd false (faults env) = false /\
   exists r, pg_integer id = Some r /\ select_product r (tables s) = None) /\
  (read_statusCode (getProduct env id s) = 500 <->
   hd false (faults env) = true \/ pg_integer id = None) /\
  (read_statusCode (getOrder env id s) = 404 <->
   hd false (faults env) = false /\
   exists r, pg_integer id = Some r /\
             find (fun o => o_id o =? r) (orders (tables s)) = None) /\
  (read_statusCode (getOrder env id s) = 500 <->
   hd false (faults env) = true \/ pg_integer id = None).
Proof.
  intros _.
  assert (Hfaults : hd false (faults env) = true ->
                    getProduct env id s = ReadFailed /\ getOrder env id s = ReadFailed).
  { unfold getProduct, getOrder, ProductRepository.findById,
      OrderRepository.findById, pool_query.
    destruct (faults env) as [|[] fs]; simpl; try discriminate. auto. }
  assert (Hruns : hd false (faults env) = false ->
                  getProduct env id s
                  = match pg_integer id with
                    | None => ReadFailed
                    | Some r =>
                        match select_product r (tables s) with
                        | Some product =>
                            Found (mkProductView (p_id product) (p_name product)
                                     (p_stock product) (p_created_at product))
                        | None => Missing "Product not found"
                        end
                    end /\
                  getOrder env id s
                  = match pg_integer id with
                    | None => ReadFailed
                    | Some r =>
                        match find (fun o => o_id o =? r) (orders (tables s)) with
                        | Some order => Found order
                        | None => Missing "Order not found"
                        end
                    end).
  { unfold getProduct, getOrder, ProductRepository.findById,
      OrderRepository.findById, pool_query.
    destruct (faults env) as [|[] fs]; simpl; try discriminate;
      destruct (pg_integer id); auto. }
  destruct (hd false (faults env)).
  - destruct (Hfaults eq_refl) as [-> ->]. simpl.
    repeat split; try discriminate; auto; intros [H _]; discriminate.
  - destruct (Hruns eq_refl) as [-> ->]. clear Hfaults Hruns.
    destruct (pg_integer id) as [r|]; simpl.
    + destruct (select_product r (tables s)) as [p|] eqn:Hsel;
        destruct (find (fun o => o_id o =? r) (orders (tables s))) as [o|] eqn:Hfind;
        simpl.
      all: repeat split; try discriminate; eauto.
      all: try (intros [H|H]; discriminate).
      all: intros (_ & r0 & [= <-] & H); congruence.
    + repeat split; try discriminate; auto.
      all: intros (_ & r0 & H & _); discriminate.
Qed.

Lemma read_status_codes_witness :
  (read_statusCode (getProduct (undisturbed 9) (js_of_int 99) sample_data) = 404 <->
   hd false (faults (undisturbed 9)) = false /\
   exists r, pg_integer (js_of_int 99) = Some r /\
             select_product r (tables sample_data) = None) /\
  (read_statusCode (getProduct (undisturbed 9) (js_of_int 99) sample_data) = 500 <->
   hd false (faults (undisturbed 9)) = true \/ pg_integer (js_of_int 99) = None) /\
  (read_statusCode (getOrder (undisturbed 9) (js_of_int 99) sample_data) = 404 <->
   hd false (faults (undisturbed 9)) = false /\
   exists r, pg_integer (js_of_int 99) = Some r /\
             find (fun o => o_id o =? r) (orders (tables sample_data)) = None) /\
  (read_statusCode (getOrder (undisturbed 9) (js_of_int 99) sample_data) = 500 <->
   hd false (faults (undisturbed 9)) = true \/ pg_integer (js_of_int 99) = None).
Proof.
  apply (read_status_codes (undisturbed 9) (js_of_int 99) sample_data).
  apply js_of_int_within_int4. unfold int4; lia.
Defined.

(** ** models/Product.js against the service *)



